(** * The Ising-model sampler of the course notebook

    A shallow embedding of the Ising / Metropolis-Hastings cells of
    [01-Principles/03 Regex.ipynb]: the numba-compiled [calc_positional_e]
    and [delta_e], [total_mag_e], [metropolis_hastings],
    [average_magnetization], and the Cython cell with its own
    [calc_positional_e], [delta_e], [total_mag_e] and
    [metropolis_hastings2].

    Spins are the integers -1 and +1.  The energies the notebook computes
    are floating-point numbers whose values are small integers (sums and
    products of spins and of [J = 1]); binary64 arithmetic is exact on them,
    so they are modelled in [Z]: for an integer [J] with [|J| <= 2^50]
    every product [2. * J * spins[i,j] * (...)] of [delta_e] is an integer
    of magnitude at most 2^53 and binary64 computes it exactly.  The
    acceptance test [np.exp(-beta*dE) > np.random.rand()] and
    [average_magnetization], which divides, are modelled with binary64
    floats. *)

From Stdlib Require Import ZArith Lia Bool List.
From Stdlib Require Import Floats.
From stdpp Require Import base option list list_numbers.

Open Scope Z_scope.

(** ** Outcomes of a call *)

(** The exceptions the modelled calls can end with. *)
Inductive error : Type :=
| IndexError
| ValueError
| ZeroDivisionError.

Inductive result (A : Type) : Type :=
| Ok (a : A)
| Raise (e : error).

Arguments Ok {A} a.
Arguments Raise {A} e.

(** Sequencing: the first exception ends the call.  With these instances
    [x ← m; k] reads "run [m], name its value [x], go on with [k]". *)
#[global] Instance result_ret : MRet result := fun _ a => Ok a.

#[global] Instance result_bind : MBind result := fun _ _ k m =>
  match m with
  | Ok a => k a
  | Raise e => Raise e
  end.

Fixpoint mapM {A B : Type} (f : A -> result B) (l : list A) : result (list B) :=
  match l with
  | [] => Ok []
  | x :: l' => y ← f x; ys ← mapM f l'; Ok (y :: ys)
  end.

(** [for s in idx: st = body(s, st)], stopping at the first exception. *)
Fixpoint for_each {S : Type} (body : Z -> S -> result S) (idx : list Z) (st : S)
  : result S :=
  match idx with
  | [] => Ok st
  | s :: idx' => st' ← body s st; for_each body idx' st'
  end.

(** [range(lo, hi)]. *)
Definition range (lo hi : Z) : list Z := seqZ lo (hi - lo).

(** ** Arrays *)

(** A two-dimensional integer array, row by row. *)
Abbreviation lattice := (list (list Z)).

Definition len {A : Type} (l : list A) : Z := Z.of_nat (length l).

(** [spins.shape[0]] *)
Definition shape0 (spins : lattice) : Z := len spins.

(** The position an index [k] addresses on an axis of length [n]: itself
    when [0 <= k < n]; [k + n] for [-n <= k < 0] when negative indices wrap
    around (NumPy and numba do that, Cython under [wraparound(False)] does
    not); nothing otherwise. *)
Definition axis (wraparound : bool) (n k : Z) : option nat :=
  if (0 <=? k) && (k <? n) then Some (Z.to_nat k)
  else if wraparound && (- n <=? k) && (k <? 0) then Some (Z.to_nat (k + n))
  else None.

Definition cell_at (wraparound : bool) (spins : lattice) (i j : Z) : option Z :=
  a ← axis wraparound (shape0 spins) i;
  row ← spins !! a;
  b ← axis wraparound (len row) j;
  row !! b.

(** [spins[i, j]] as a read.  When ([i], [j]) addresses no cell, NumPy
    raises IndexError, whereas the loads compiled by numba's [jit] and by
    Cython under [boundscheck(False)] are unchecked and what they yield is
    not determined by the array.  [oob] is that outcome: a read outside the
    array returns [oob spins i j]. *)
Definition getitem2 (oob : lattice -> Z -> Z -> result Z) (wraparound : bool)
  (spins : lattice) (i j : Z) : result Z :=
  match cell_at wraparound spins i j with
  | Some v => Ok v
  | None => oob spins i j
  end.

(** The checked reads of NumPy. *)
Definition numpy_oob : lattice -> Z -> Z -> result Z :=
  fun _ _ _ => Raise IndexError.

(** [a[k]] and [a[k] = v] on a one-dimensional NumPy array. *)
Definition getitem1 (a : list Z) (k : Z) : result Z :=
  match axis true (len a) k ≫= (a !!.) with
  | Some v => Ok v
  | None => Raise IndexError
  end.

Definition setitem1 (a : list Z) (k : Z) (v : Z) : result (list Z) :=
  match axis true (len a) k with
  | Some n => Ok (<[n:=v]> a)
  | None => Raise IndexError
  end.

(** [spins[i, j] *= -1] on a NumPy array. *)
Definition imul2 (spins : lattice) (i j : Z) (c : Z) : result lattice :=
  match cell_at true spins i j with
  | Some _ =>
      match axis true (shape0 spins) i with
      | Some a =>
          Ok (alter (fun row =>
                       match axis true (len row) j with
                       | Some b => alter (fun v => v * c) b row
                       | None => row
                       end) a spins)
      | None => Raise IndexError
      end
  | None => Raise IndexError
  end.

(** [np.sum] of a two-dimensional integer array. *)
Definition sum_list_Z (l : list Z) : Z := foldr Z.add 0 l.
Definition np_sum (a : lattice) : Z := sum_list_Z (map sum_list_Z a).

(** [np.ones(n)]: a negative length is refused. *)
Definition np_ones (n : Z) : result (list Z) :=
  if n <? 0 then Raise ValueError else Ok (replicate (Z.to_nat n) 1).

(** Every cell is a spin, on an [N] x [N] grid. *)
Definition is_spin (v : Z) : bool := (v =? -1) || (v =? 1).

Definition is_lattice (N : Z) (spins : lattice) : bool :=
  (len spins =? N)
  && forallb (fun row => (len row =? N) && forallb is_spin row) spins.

(** ** The numba-compiled functions and [total_mag_e] *)

Section Energy.

Variable oob : lattice -> Z -> Z -> result Z.

(** numba wraps negative indices and does not check bounds. *)
Let rd := getitem2 oob true.

(** The body of the double loop of [calc_positional_e]: the value stored
    into [E[i, j]]. *)
Definition calc_positional_e_body (spins : lattice) (i j : Z) : result Z :=
  let N := shape0 spins in
  lr ← (if i =? 0 then
           spin_l ← rd spins (N - 1) j;
           spin_r ← rd spins (i + 1) j; Ok (spin_l, spin_r)
         else if i =? N - 1 then
           spin_l ← rd spins (i - 1) j;
           spin_r ← rd spins 0 j; Ok (spin_l, spin_r)
         else
           spin_l ← rd spins i (j - 1);
           spin_r ← rd spins i (j + 1); Ok (spin_l, spin_r));
  ud ← (if j =? 0 then
           spin_u ← rd spins i (N - 1);
           spin_d ← rd spins i (j + 1); Ok (spin_u, spin_d)
         else if j =? N - 1 then
           spin_u ← rd spins i (j - 1);
           spin_d ← rd spins i 0; Ok (spin_u, spin_d)
         else
           spin_u ← rd spins i (j - 1);
           spin_d ← rd spins i (j + 1); Ok (spin_u, spin_d));
  Ok (lr.1 + lr.2 + ud.1 + ud.2).

(** [calc_positional_e(spins, J)]: the array [E], filled row by row. *)
Definition calc_positional_e (spins : lattice) (J : Z) : result lattice :=
  let N := shape0 spins in
  mapM (fun i => mapM (fun j => calc_positional_e_body spins i j) (range 0 N))
       (range 0 N).

(** [delta_e(spins, i, j, J)] *)
Definition delta_e (spins : lattice) (i j J : Z) : result Z :=
  let N := shape0 spins in
  lr ← (if i =? 0 then
           spin_l ← rd spins (N - 1) j;
           spin_r ← rd spins (i + 1) j; Ok (spin_l, spin_r)
         else if i =? N - 1 then
           spin_l ← rd spins (i - 1) j;
           spin_r ← rd spins 0 j; Ok (spin_l, spin_r)
         else
           spin_l ← rd spins (i - 1) j;
           spin_r ← rd spins (i + 1) j; Ok (spin_l, spin_r));
  ud ← (if j =? 0 then
           spin_u ← rd spins i (N - 1);
           spin_d ← rd spins i (j + 1); Ok (spin_u, spin_d)
         else if j =? N - 1 then
           spin_u ← rd spins i (j - 1);
           spin_d ← rd spins i 0; Ok (spin_u, spin_d)
         else
           spin_u ← rd spins i (j - 1);
           spin_d ← rd spins i (j + 1); Ok (spin_u, spin_d));
  s ← rd spins i j;
  Ok (2 * J * s * (lr.1 + lr.2 + ud.1 + ud.2)).

(** [total_mag_e(spins, J)] *)
Definition total_mag_e (spins : lattice) (J : Z) : result Z :=
  E ← calc_positional_e spins J;
  Ok (- J * np_sum E).

End Energy.

(** ** Randomness and the exponential *)

(** What the sampler takes from outside: the state of the random generators
    and the draws made from it, and the floating-point test of the
    acceptance rule.  [choice N g] is [np.random.choice([-1,1], size=(N,N))],
    [randint N g] a site index ([np.random.randint(N)] for the Python
    sampler, [int(drand48() * N)] for the Cython one), [rand g] a uniform
    draw ([np.random.rand()], [drand48()]), and [exp_gt beta dE u] the
    comparison [exp(-beta*dE) > u]. *)
Record environment : Type := {
  gen : Type;
  uniform : Type;
  invtemp : Type;
  choice : Z -> gen -> lattice * gen;
  randint : Z -> gen -> Z * gen;
  rand : gen -> uniform * gen;
  exp_gt : invtemp -> Z -> uniform -> bool
}.

(** The contract of the library draws: [choice] fills an [N] x [N] array
    with -1 and +1, and a site index lies in [0, N). *)
Record environment_ok (W : environment) : Prop := {
  choice_is_lattice :
    forall N g, 0 <= N -> is_lattice N (choice W N g).1 = true;
  randint_range :
    forall N g, 0 < N -> 0 <= (randint W N g).1 < N
}.

(** ** [metropolis_hastings] *)

Section Sampler.

Variable oob : lattice -> Z -> Z -> result Z.
Variable W : environment.

(** The variables of a run: the generator, [spins] and [E_series]. *)
Record sampler : Type := {
  rng : gen W;
  spins : lattice;
  E_series : list Z
}.

(** [np.random.choice([-1,1], size=(N,N))]: a negative size is refused. *)
Definition np_random_choice (N : Z) (g : gen W) : result (lattice * gen W) :=
  if N <? 0 then Raise ValueError else Ok (choice W N g).

(** [np.random.randint(N)]: an empty interval is refused. *)
Definition np_random_randint (N : Z) (g : gen W) : result (Z * gen W) :=
  if N <=? 0 then Raise ValueError else Ok (randint W N g).

(** [dE < 0. or np.exp(-beta*dE) > np.random.rand()]: the uniform draw is
    made only when [dE < 0.] is false. *)
Definition accepts (beta : invtemp W) (dE : Z) (g : gen W) : bool * gen W :=
  if dE <? 0 then (true, g)
  else let '(u, g') := rand W g in (exp_gt W beta dE u, g').

(** The lines of [metropolis_hastings] before the loop. *)
Definition mh_init (N n_steps : Z) (g : gen W) : result sampler :=
  '(spins, g) ← np_random_choice N g;
  let J := 1 in
  E_series ← np_ones n_steps;
  e ← total_mag_e oob spins J;
  E_series ← setitem1 E_series 0 e;
  Ok {| rng := g; spins := spins; E_series := E_series |}.

(** The body of the loop, at step [s]. *)
Definition mh_step (N : Z) (beta : invtemp W) (s : Z) (st : sampler)
  : result sampler :=
  let J := 1 in
  '(randx, g) ← np_random_randint N (rng st);
  '(randy, g) ← np_random_randint N g;
  dE ← delta_e oob (spins st) randx randy J;
  let '(yes, g) := accepts beta dE g in
  if yes then
    spins' ← imul2 (spins st) randx randy (-1);
    prev ← getitem1 (E_series st) (s - 1);
    E_series' ← setitem1 (E_series st) s (prev + dE);
    Ok {| rng := g; spins := spins'; E_series := E_series' |}
  else
    prev ← getitem1 (E_series st) (s - 1);
    E_series' ← setitem1 (E_series st) s prev;
    Ok {| rng := g; spins := spins st; E_series := E_series' |}.

(** The run up to and including step [k]: [mh_upto N n_steps beta 0 g] is
    the state when the loop is entered. *)
Definition mh_upto (N n_steps : Z) (beta : invtemp W) (k : Z) (g : gen W)
  : result sampler :=
  st ← mh_init N n_steps g;
  for_each (mh_step N beta) (range 1 (k + 1)) st.

(** [metropolis_hastings(N, n_steps, beta)] *)
Definition metropolis_hastings (N n_steps : Z) (beta : invtemp W) (g : gen W)
  : result (lattice * list Z) :=
  st ← mh_init N n_steps g;
  st ← for_each (mh_step N beta) (range 1 n_steps) st;
  Ok (spins st, E_series st).

End Sampler.

Arguments rng {W} s.
Arguments spins {W} s.
Arguments E_series {W} s.

(** ** The Cython cell *)

Module Cython.
Section Cython.

Variable oob : lattice -> Z -> Z -> result Z.
Variable W : environment.

(** Under [boundscheck(False)] and [wraparound(False)] no index is
    checked and none wraps. *)
Let rd := getitem2 oob false.

(** [calc_positional_e(spins, i, j, J)] *)
Definition calc_positional_e (spins : lattice) (i j J : Z) : result Z :=
  let N := shape0 spins in
  lr ← (if i =? 0 then
           spin_l ← rd spins (N - 1) j;
           spin_r ← rd spins (i + 1) j; Ok (spin_l, spin_r)
         else if i =? N - 1 then
           spin_l ← rd spins (i - 1) j;
           spin_r ← rd spins 0 j; Ok (spin_l, spin_r)
         else
           spin_l ← rd spins i (j - 1);
           spin_r ← rd spins i (j + 1); Ok (spin_l, spin_r));
  ud ← (if j =? 0 then
           spin_u ← rd spins i (N - 1);
           spin_d ← rd spins i (j + 1); Ok (spin_u, spin_d)
         else if j =? N - 1 then
           spin_u ← rd spins i (j - 1);
           spin_d ← rd spins i 0; Ok (spin_u, spin_d)
         else
           spin_u ← rd spins i (j - 1);
           spin_d ← rd spins i (j + 1); Ok (spin_u, spin_d));
  Ok (lr.1 + lr.2 + ud.1 + ud.2).

(** [delta_e(spins, i, j, J)] *)
Definition delta_e (spins : lattice) (i j J : Z) : result Z :=
  s ← rd spins i j;
  e ← calc_positional_e spins i j J;
  Ok (2 * J * s * e).

(** [total_mag_e(spins, J)]: [sum_sp] runs over the cells row by row. *)
Definition total_mag_e (spins : lattice) (J : Z) : result Z :=
  let N := shape0 spins in
  sum_sp ← for_each
    (fun i sum_sp =>
       for_each
         (fun j sum_sp =>
            e ← calc_positional_e spins i j J; Ok (sum_sp + e))
         (range 0 N) sum_sp)
    (range 0 N) 0;
  Ok (- J * sum_sp).

Definition mh2_init (N n_steps : Z) (g : gen W) : result (sampler W) :=
  E_series ← np_ones n_steps;
  '(spins, g) ← np_random_choice W N g;
  let J := 1 in
  e ← total_mag_e spins J;
  E_series ← setitem1 E_series 0 e;
  Ok {| rng := g; spins := spins; E_series := E_series |}.

Definition mh2_step (N : Z) (beta : invtemp W) (s : Z) (st : sampler W)
  : result (sampler W) :=
  let J := 1 in
  let '(randx, g) := randint W N (rng st) in
  let '(randy, g) := randint W N g in
  dE ← delta_e (spins st) randx randy J;
  let '(yes, g) := accepts W beta dE g in
  if yes then
    spins' ← imul2 (spins st) randx randy (-1);
    prev ← getitem1 (E_series st) (s - 1);
    E_series' ← setitem1 (E_series st) s (prev + dE);
    Ok {| rng := g; spins := spins'; E_series := E_series' |}
  else
    prev ← getitem1 (E_series st) (s - 1);
    E_series' ← setitem1 (E_series st) s prev;
    Ok {| rng := g; spins := spins st; E_series := E_series' |}.

(** [metropolis_hastings2(N, n_steps, beta)].  Its stores into [spins]
    and [E_series] are unchecked too; they are modelled by the checked
    stores, which they agree with whenever the index is in range. *)
Definition metropolis_hastings2 (N n_steps : Z) (beta : invtemp W) (g : gen W)
  : result (lattice * list Z) :=
  st ← mh2_init N n_steps g;
  st ← for_each (mh2_step N beta) (range 1 n_steps) st;
  Ok (spins st, E_series st).

End Cython.
End Cython.

(** ** [average_magnetization] *)

(** An integer as a binary64 float: the nearest float, ties to even, as
    the conversion of a Python or NumPy integer gives it. *)
Definition float_of_Z (z : Z) : float :=
  SF2Prim (binary_normalize prec emax z 0 false).

(** An integer as an unrounded operand of a division. *)
Definition Z2SF (z : Z) : spec_float :=
  match z with
  | Z0 => S754_zero false
  | Zpos m => S754_finite false m 0
  | Zneg m => S754_finite true m 0
  end.

(** [1 / n] on Python integers: ZeroDivisionError for [n = 0], and
    otherwise the exact quotient rounded once to the nearest float. *)
Definition py_one_over (n : Z) : result float :=
  if n =? 0 then Raise ZeroDivisionError
  else Ok (SF2Prim (SFdiv prec emax (Z2SF 1) (Z2SF n))).

(** [average_magnetization(spins, N)], that is [(1 / N**2) * np.sum(spins)]:
    a true division of integers, then a product of floats. *)
Definition average_magnetization (spins : lattice) (N : Z) : result float :=
  q ← py_one_over (N ^ 2);
  Ok (PrimFloat.mul q (float_of_Z (np_sum spins))).

(** ** The quantities the specification speaks of *)

(** The cell of a grid, for indices within it. *)
Definition cell (spins : lattice) (i j : Z) : Z :=
  default 0 (cell_at false spins i j).

(** The periodic four-neighbour sum: the values above, below, left and
    right of ([i], [j]), indices taken modulo [N]. *)
Definition neighborSum (spins : lattice) (i j : Z) : Z :=
  let N := shape0 spins in
  cell spins ((i - 1) mod N) j + cell spins ((i + 1) mod N) j
  + cell spins i ((j - 1) mod N) + cell spins i ((j + 1) mod N).






(** A grid with the same value in every cell. *)
Definition uniform_lattice (N : Z) (v : Z) : lattice :=
  replicate (Z.to_nat N) (replicate (Z.to_nat N) v).

(** ** A scripted environment *)

(** Draws read off a script: the initial grid, the site indices and, for
    each uniform draw, whether it falls below the Boltzmann factor. *)
Record script : Type := {
  grid : lattice;
  indices : list Z;
  below : list bool
}.

Definition scripted : environment := {|
  gen := script;
  uniform := bool;
  invtemp := unit;
  choice N g :=
    (if is_lattice N (grid g) then grid g else uniform_lattice N 1, g);
  randint N g :=
    (hd 0 (indices g) mod N,
     {| grid := grid g; indices := tl (indices g); below := below g |});
  rand g :=
    (hd false (below g),
     {| grid := grid g; indices := indices g; below := tl (below g) |});
  exp_gt _ _ u := u
|}.


(** The value a call returned, [d] when it raised. *)
Definition value_or {A : Type} (d : A) (r : result A) : A :=
  match r with
  | Ok a => a
  | Raise _ => d
  end.

(** The array [calc_positional_e] fills when no read of its loop body
    raises: entry ([i], [j]) is the value of the loop body there. *)
Definition positional_e_array (oob : lattice -> Z -> Z -> result Z)
  (spins : lattice) : lattice :=
  map (fun i => map (fun j => value_or 0 (calc_positional_e_body oob spins i j))
                    (range 0 (shape0 spins)))
      (range 0 (shape0 spins)).

(** The grid with the spin at ([i], [j]) negated and every other cell
    kept. *)
Definition flipped (spins : lattice) (i j : Z) : lattice :=
  alter (alter (fun v => v * -1) (Z.to_nat j)) (Z.to_nat i) spins.

(** The site a step proposes from generator state [g], and the generator
    after the two draws. *)
Definition proposal (W : environment) (N : Z) (g : gen W) : Z * Z * gen W :=
  let '(randx, g) := randint W N g in
  let '(randy, g) := randint W N g in
  (randx, randy, g).

(** The states a run passes through: [spins] is an [N] x [N] spin grid and
    [E_series] has [n_steps] entries. *)
Definition run_state {W : environment} (N n_steps : Z) (st : sampler W) : Prop :=
  is_lattice N (spins st) = true /\ len (E_series st) = n_steps.

(** The loads compiled by numba and Cython do not raise: a read outside
    the array yields some value. *)
Definition unchecked (oob : lattice -> Z -> Z -> result Z) : Prop :=
  forall spins i j, exists v, oob spins i j = Ok v.

(** An unchecked load that yields 0 wherever it falls outside the array. *)
Definition zero_oob : lattice -> Z -> Z -> result Z := fun _ _ _ => Ok 0.

(** A script on the 2 x 2 grid: the sites (0, 0), (1, 1) and (0, 1) are
    proposed in turn, and the first uniform draw falls below the Boltzmann
    factor. *)
Definition script_2 : script :=
  {| grid := [[1; -1]; [-1; -1]];
     indices := [0; 0; 1; 1; 0; 1];
     below := [true; false] |}.

(** What the loop of Task 6 stores in [m_ser[b]]:
    [average_magnetization(C[0], 20)], where [C] is the lattice returned
    by [metropolis_hastings(20, 500000, betas[b])].  [C[0]] is the first
    row of the lattice, and [np.sum] of that one-dimensional array is the
    sum of the one-row array holding it. *)
Definition m_ser_entry (C : lattice) : result float :=
  match C !! 0%nat with
  | Some row => average_magnetization [row] 20
  | None => Raise IndexError
  end.

(** ** The acceptance test in binary64 *)

(** [np.exp(-beta*dE) > np.random.rand()] for a float [beta], the energy
    [dE] and the uniform draw [u]: the product of [-beta] and [dE], the
    exponential of it, and the comparison with [u].  The exponential is
    the library's and comes as the function [np_exp]. *)
Definition boltzmann_gt (np_exp : float -> float) (beta : float) (dE : Z)
  (u : float) : bool :=
  PrimFloat.ltb u (np_exp (PrimFloat.mul (PrimFloat.opp beta) (float_of_Z dE))).

(** The environment of the notebook: [beta] and the uniform draws are
    floats and the test of the acceptance rule is [boltzmann_gt]. *)
Definition numpy_environment (G : Type) (choice : Z -> G -> lattice * G)
  (randint : Z -> G -> Z * G) (rand : G -> float * G)
  (np_exp : float -> float) : environment :=
  {| gen := G; uniform := float; invtemp := float;
     choice := choice; randint := randint; rand := rand;
     exp_gt := boltzmann_gt np_exp |}.

(** A tape of draws: the initial grid, the site indices and the uniform
    draws as floats. *)
Record tape : Type := {
  tape_grid : lattice;
  tape_indices : list Z;
  tape_uniforms : list float
}.

(** An exponential good to a few digits, [(1 + x / 2^20) ^ (2^20)] by
    repeated squaring, to run the samplers on a tape. *)
Definition exp_by_squaring (x : float) : float :=
  Nat.iter 20 (fun y => PrimFloat.mul y y)
    (PrimFloat.add 1 (PrimFloat.div x 1048576)).

Definition tape_choice (N : Z) (g : tape) : lattice * tape :=
  (if is_lattice N (tape_grid g) then tape_grid g else uniform_lattice N 1, g).

Definition tape_randint (N : Z) (g : tape) : Z * tape :=
  (hd 0 (tape_indices g) mod N,
   {| tape_grid := tape_grid g; tape_indices := tl (tape_indices g);
      tape_uniforms := tape_uniforms g |}).

Definition tape_rand (g : tape) : float * tape :=
  (hd 0%float (tape_uniforms g),
   {| tape_grid := tape_grid g; tape_indices := tape_indices g;
      tape_uniforms := tl (tape_uniforms g) |}).

Definition taped : environment :=
  numpy_environment tape tape_choice tape_randint tape_rand exp_by_squaring.

(** A tape on the 2 x 2 grid of +1: each step proposes (0, 0), where
    [dE] is 8, then (1, 1); the uniform draws are 0.01 and 0.5. *)
Definition tape_2 : tape :=
  {| tape_grid := [[1; 1]; [1; 1]];
     tape_indices := [0; 0; 1; 1];
     tape_uniforms := [0x1.47ae147ae147bp-7%float; 0.5%float] |}.

(** ** Floats next to each other *)

(** The value [average_magnetization] returns for side [N] when the sum
    of the lattice is [k]. *)
Definition magnetization_of_sum (N k : Z) : float :=
  PrimFloat.mul (SF2Prim (SFdiv prec emax (Z2SF 1) (Z2SF (N ^ 2))))
                (float_of_Z k).



(** * Properties *)

(** ** Reads inside a spin grid *)

Lemma is_spin_cases (v : Z) : is_spin v = true -> v = -1 \/ v = 1.
Proof. unfold is_spin. lia. Qed.

Lemma axis_in_range (w : bool) (n k : Z) :
  0 <= k < n -> axis w n k = Some (Z.to_nat k).
Proof.
  intros Hk. unfold axis.
  destruct (Z.leb_spec 0 k), (Z.ltb_spec k n); simpl; try lia. reflexivity.
Qed.

Lemma is_lattice_len (N : Z) (spins : lattice) :
  is_lattice N spins = true -> shape0 spins = N.
Proof.
  unfold is_lattice, shape0. intros H.
  apply andb_true_iff in H as [H _]. lia.
Qed.

Lemma is_lattice_lookup (N : Z) (spins : lattice) (i j : Z) :
  is_lattice N spins = true -> 0 <= i < N -> 0 <= j < N ->
  exists row v,
    spins !! Z.to_nat i = Some row /\ len row = N
    /\ row !! Z.to_nat j = Some v /\ is_spin v = true.
Proof.
  intros H Hi Hj. pose proof (is_lattice_len _ _ H) as HN.
  unfold is_lattice in H. apply andb_true_iff in H as [_ Hrows].
  rewrite forallb_forall in Hrows.
  destruct (lookup_lt_is_Some_2 spins (Z.to_nat i)) as [row Hrow].
  { unfold shape0, len in HN. lia. }
  specialize (Hrows row).
  rewrite <- list_elem_of_In in Hrows.
  specialize (Hrows (list_elem_of_lookup_2 _ _ _ Hrow)).
  apply andb_true_iff in Hrows as [Hlen Hcells].
  assert (len row = N) as Hlen' by lia.
  destruct (lookup_lt_is_Some_2 row (Z.to_nat j)) as [v Hv].
  { unfold len in Hlen'. lia. }
  rewrite forallb_forall in Hcells. specialize (Hcells v).
  rewrite <- list_elem_of_In in Hcells.
  specialize (Hcells (list_elem_of_lookup_2 _ _ _ Hv)).
  exists row, v. auto.
Qed.

Lemma cell_at_in_range (w : bool) (N : Z) (spins : lattice) (i j : Z) :
  is_lattice N spins = true -> 0 <= i < N -> 0 <= j < N ->
  cell_at w spins i j = Some (cell spins i j) /\ is_spin (cell spins i j) = true.
Proof.
  intros H Hi Hj.
  destruct (is_lattice_lookup _ _ _ _ H Hi Hj) as (row & v & Hrow & Hlen & Hv & Hs).
  assert (forall w', cell_at w' spins i j = Some v) as Hc.
  { intros w'. unfold cell_at.
    rewrite (is_lattice_len _ _ H), (axis_in_range w' N i Hi). simpl.
    rewrite Hrow. simpl. rewrite Hlen, (axis_in_range w' N j Hj). simpl.
    exact Hv. }
  unfold cell. rewrite (Hc false), (Hc w). simpl. auto.
Qed.

Lemma getitem2_in_range oob (w : bool) (N : Z) (spins : lattice) (i j : Z) :
  is_lattice N spins = true -> 0 <= i < N -> 0 <= j < N ->
  getitem2 oob w spins i j = Ok (cell spins i j).
Proof.
  intros H Hi Hj. unfold getitem2.
  destruct (cell_at_in_range w _ _ _ _ H Hi Hj) as [-> _]. reflexivity.
Qed.

Lemma cell_is_spin (N : Z) (spins : lattice) (i j : Z) :
  is_lattice N spins = true -> 0 <= i < N -> 0 <= j < N ->
  cell spins i j = -1 \/ cell spins i j = 1.
Proof.
  intros H Hi Hj. apply is_spin_cases.
  apply (cell_at_in_range true _ _ _ _ H Hi Hj).
Qed.

(** ** Indices modulo the side of the grid *)

Lemma mod_pred (N i : Z) :
  0 <= i < N -> (i - 1) mod N = if i =? 0 then N - 1 else i - 1.
Proof.
  intros Hi. destruct (Z.eqb_spec i 0) as [-> | Hne].
  - symmetry. apply (Z.mod_unique _ _ (-1)); lia.
  - apply Z.mod_small. lia.
Qed.

Lemma mod_succ (N i : Z) :
  0 <= i < N -> (i + 1) mod N = if i =? N - 1 then 0 else i + 1.
Proof.
  intros Hi. destruct (Z.eqb_spec i (N - 1)) as [-> | Hne].
  - symmetry. apply (Z.mod_unique _ _ 1); lia.
  - apply Z.mod_small. lia.
Qed.

(** ** [delta_e] on grids of side at least two *)

(** On a spin grid of side [N >= 2], [delta_e] reads inside the grid only
    and returns [2 * J * spins[i,j]] times the periodic neighbour sum. *)
Lemma delta_e_periodic oob (N : Z) (spins : lattice) (i j J : Z) :
  2 <= N -> is_lattice N spins = true -> 0 <= i < N -> 0 <= j < N ->
  delta_e oob spins i j J = Ok (2 * J * cell spins i j * neighborSum spins i j).
Proof.
  intros HN H Hi Hj. unfold delta_e, neighborSum.
  rewrite (is_lattice_len _ _ H), (mod_pred N i Hi), (mod_succ N i Hi),
    (mod_pred N j Hj), (mod_succ N j Hj).
  destruct (Z.eqb_spec i 0) as [Hi0 | Hi0];
    destruct (Z.eqb_spec i (N - 1)) as [HiN | HiN]; try lia;
  destruct (Z.eqb_spec j 0) as [Hj0 | Hj0];
    destruct (Z.eqb_spec j (N - 1)) as [HjN | HjN]; try lia;
  rewrite ?(getitem2_in_range oob true N) by (assumption || lia);
  simpl; f_equal; subst; try lia.
Qed.





(** ** [calc_positional_e] *)

(** On the first and on the last row the loop body of [calc_positional_e]
    computes the periodic neighbour sum. *)
Lemma calc_positional_e_body_edge_row oob (N : Z) (spins : lattice) (i j : Z) :
  2 <= N -> is_lattice N spins = true -> i = 0 \/ i = N - 1 -> 0 <= j < N ->
  calc_positional_e_body oob spins i j = Ok (neighborSum spins i j).
Proof.
  intros HN H Hi Hj. assert (0 <= i < N) as Hi' by lia.
  unfold calc_positional_e_body, neighborSum.
  rewrite (is_lattice_len _ _ H), (mod_pred N i Hi'), (mod_succ N i Hi'),
    (mod_pred N j Hj), (mod_succ N j Hj).
  destruct (Z.eqb_spec i 0) as [Hi0 | Hi0];
    destruct (Z.eqb_spec i (N - 1)) as [HiN | HiN]; try lia;
  destruct (Z.eqb_spec j 0) as [Hj0 | Hj0];
    destruct (Z.eqb_spec j (N - 1)) as [HjN | HjN]; try lia;
  rewrite ?(getitem2_in_range oob true N) by (assumption || lia);
  simpl; f_equal; subst; try lia.
Qed.

(** On a row strictly between the first and the last, and a column
    strictly between the first and the last, the loop body reads the left
    and right neighbours twice and the upper and lower neighbours never. *)
Lemma calc_positional_e_body_inner oob (N : Z) (spins : lattice) (i j : Z) :
  is_lattice N spins = true -> 0 < i < N - 1 -> 0 < j < N - 1 ->
  calc_positional_e_body oob spins i j
  = Ok (2 * (cell spins i (j - 1) + cell spins i (j + 1))).
Proof.
  intros H Hi Hj. unfold calc_positional_e_body.
  rewrite (is_lattice_len _ _ H).
  destruct (Z.eqb_spec i 0); destruct (Z.eqb_spec i (N - 1)); try lia.
  destruct (Z.eqb_spec j 0); destruct (Z.eqb_spec j (N - 1)); try lia.
  rewrite !(getitem2_in_range oob true N) by (assumption || lia).
  simpl. f_equal. lia.
Qed.

(** C1, evaluated where it fails.  On the 3 x 3 grid below the periodic
    neighbour sum of the centre is 0, yet [E[1,1]] is -4: in the middle row
    [calc_positional_e] adds [spins[i,j-1] + spins[i,j+1]] twice.  In the
    same row its read of [spins[1,3]] is outside the array, so the whole
    call ends with that read's outcome. *)
Theorem calc_positional_e_middle_row oob (J : Z) :
  let L := [[1; 1; 1]; [-1; 1; -1]; [1; 1; 1]] in
  is_lattice 3 L = true
  /\ neighborSum L 1 1 = 0
  /\ calc_positional_e_body oob L 1 1 = Ok (-4)
  /\ calc_positional_e oob L J
     = (v ← oob L 1 3; Ok [[2; 4; 2]; [0; -4; 1 + v + 1 + -1]; [2; 4; 2]])
  /\ calc_positional_e numpy_oob L J = Raise IndexError.
Proof.
  cbv zeta. repeat split; try reflexivity.
  vm_compute. destruct (oob _ _ _); reflexivity.
Qed.

(** C2, evaluated where it fails.  On the same grid [delta_e] at the centre
    is [2 * 1 * 1 * 0 = 0], while [2 * J * spins[1,1]] times the entry
    [E[1,1] = -4] of [calc_positional_e] is -8. *)
Theorem delta_e_not_from_calc_positional_e oob :
  let L := [[1; 1; 1]; [-1; 1; -1]; [1; 1; 1]] in
  delta_e oob L 1 1 1 = Ok 0
  /\ (e ← calc_positional_e_body oob L 1 1; Ok (2 * 1 * cell L 1 1 * e)) = Ok (-8)
  /\ (E ← calc_positional_e oob L 1;
      e ← getitem2 numpy_oob true E 1 1; Ok (2 * 1 * cell L 1 1 * e))
     = (v ← oob L 1 3; Ok (-8)).
Proof.
  cbv zeta. repeat split; try reflexivity.
  vm_compute. destruct (oob _ _ _); reflexivity.
Qed.


(** ** [total_mag_e] *)

Lemma mapM_Ok_map {A B : Type} (d : B) (f : A -> result B) (l : list A)
  (ys : list B) :
  mapM f l = Ok ys -> ys = map (fun x => value_or d (f x)) l.
Proof.
  revert ys. induction l as [| x l IH]; simpl; intros ys H.
  - inversion H. reflexivity.
  - destruct (f x) as [y | e]; simpl in H; [| discriminate].
    destruct (mapM f l) as [ys' | e]; simpl in H; [| discriminate].
    inversion H. simpl. f_equal. apply IH. reflexivity.
Qed.

Lemma mapM_Ok_each {A B : Type} (f : A -> result B) (l : list A)
  (ys : list B) (x : A) :
  mapM f l = Ok ys -> In x l -> exists y, f x = Ok y.
Proof.
  revert ys. induction l as [| x' l IH]; simpl; intros ys H Hx; [done |].
  destruct (f x') as [y | e] eqn:Hfx; simpl in H; [| discriminate].
  destruct (mapM f l) as [ys' | e]; simpl in H; [| discriminate].
  destruct Hx as [<- | Hx]; eauto.
Qed.

Lemma calc_positional_e_Ok oob (spins : lattice) (J : Z) (E : lattice) :
  calc_positional_e oob spins J = Ok E -> E = positional_e_array oob spins.
Proof.
  unfold calc_positional_e, positional_e_array. intros H.
  rewrite (mapM_Ok_map [] _ _ _ H).
  apply map_ext_in. intros i Hi.
  destruct (mapM_Ok_each _ _ _ i H Hi) as [row Hrow].
  rewrite Hrow. simpl. apply (mapM_Ok_map 0 _ _ _ Hrow).
Qed.

(** A spin grid of side two, cell by cell. *)
Lemma length_2 {A : Type} (l : list A) :
  len l = 2 -> exists a b, l = [a; b].
Proof.
  unfold len. destruct l as [| a [| b [| c l]]]; simpl length; try lia.
  eauto.
Qed.

Lemma is_lattice_2 (spins : lattice) :
  is_lattice 2 spins = true ->
  exists a b c d, spins = [[a; b]; [c; d]].
Proof.
  unfold is_lattice. intros H. apply andb_true_iff in H as [Hlen Hrows].
  apply Z.eqb_eq in Hlen. destruct (length_2 _ Hlen) as (r1 & r2 & ->).
  simpl in Hrows.
  repeat (apply andb_true_iff in Hrows as [? Hrows]).
  destruct (length_2 r1) as (a & b & ->); [lia |].
  destruct (length_2 r2) as (c & d & ->); [lia |].
  eauto.
Qed.

(** On a grid of side two every row is the first or the last one, and
    each cell is counted once for each of its four neighbours. *)
Lemma total_mag_e_side_2 oob (spins : lattice) (J : Z) :
  is_lattice 2 spins = true ->
  total_mag_e oob spins J = Ok (- J * (4 * np_sum spins)).
Proof.
  intros H. destruct (is_lattice_2 _ H) as (a & b & c & d & ->).
  unfold total_mag_e, calc_positional_e.
  change (range 0 (shape0 [[a; b]; [c; d]])) with [0; 1]. cbn [mapM].
  rewrite !(calc_positional_e_body_edge_row oob 2) by (assumption || lia).
  simpl. do 2 f_equal.
  change (neighborSum [[a; b]; [c; d]] 0 0) with (c + c + b + b).
  change (neighborSum [[a; b]; [c; d]] 0 1) with (d + d + a + a).
  change (neighborSum [[a; b]; [c; d]] 1 0) with (a + a + d + d).
  change (neighborSum [[a; b]; [c; d]] 1 1) with (b + b + c + c).
  unfold np_sum, sum_list_Z. simpl. lia.
Qed.




(** ** Stores into the grid and into the series *)

Lemma is_lattice_Forall (N : Z) (spins : lattice) :
  is_lattice N spins = true <->
  len spins = N
  /\ Forall (fun row => len row = N /\ Forall (fun v => is_spin v = true) row)
            spins.
Proof.
  unfold is_lattice. rewrite andb_true_iff, Z.eqb_eq.
  apply and_iff_compat_l.
  rewrite forallb_forall, Forall_forall.
  setoid_rewrite <- list_elem_of_In.
  apply forall_proper; intros row. apply forall_proper; intros _.
  rewrite andb_true_iff, Z.eqb_eq, forallb_forall, Forall_forall.
  setoid_rewrite <- list_elem_of_In. reflexivity.
Qed.

Lemma flipped_is_lattice (N : Z) (spins : lattice) (i j : Z) :
  is_lattice N spins = true -> is_lattice N (flipped spins i j) = true.
Proof.
  rewrite !is_lattice_Forall. unfold flipped, len. intros [Hlen Hrows].
  rewrite length_alter. split; [assumption |].
  apply Forall_alter; [assumption |].
  intros row _ [Hrow Hcells]. rewrite length_alter. split; [assumption |].
  apply Forall_alter; [assumption |].
  intros v _ Hv. apply is_spin_cases in Hv as [-> | ->]; reflexivity.
Qed.

Lemma imul2_in_range (N : Z) (spins : lattice) (i j : Z) :
  is_lattice N spins = true -> 0 <= i < N -> 0 <= j < N ->
  imul2 spins i j (-1) = Ok (flipped spins i j).
Proof.
  intros H Hi Hj. unfold imul2.
  destruct (cell_at_in_range true _ _ _ _ H Hi Hj) as [-> _].
  rewrite (is_lattice_len _ _ H), (axis_in_range true N i Hi).
  unfold flipped. f_equal. apply list_alter_ext; [| reflexivity].
  intros row Hrow.
  destruct (is_lattice_lookup _ _ _ _ H Hi Hj) as (row' & v & Hrow' & Hlen & _).
  assert (row' = row) as -> by congruence.
  rewrite Hlen, (axis_in_range true N j Hj). reflexivity.
Qed.

(** Negating the spin at ([i], [j]) changes that cell and no other. *)
Lemma cell_flipped (N : Z) (spins : lattice) (i j a b : Z) :
  is_lattice N spins = true -> 0 <= i < N -> 0 <= j < N ->
  0 <= a < N -> 0 <= b < N ->
  cell (flipped spins i j) a b
  = if (a =? i) && (b =? j) then - cell spins a b else cell spins a b.
Proof.
  intros H Hi Hj Ha Hb.
  destruct (is_lattice_lookup _ _ _ _ H Ha Hb) as (row & v & Hrow & Hlen & Hv & _).
  assert (cell spins a b = v) as ->.
  { destruct (cell_at_in_range false _ _ _ _ H Ha Hb) as [Hc _].
    unfold cell_at in Hc.
    rewrite (is_lattice_len _ _ H), (axis_in_range false N a Ha) in Hc.
    simpl in Hc. rewrite Hrow in Hc. simpl in Hc.
    rewrite Hlen, (axis_in_range false N b Hb) in Hc. simpl in Hc.
    congruence. }
  pose proof (flipped_is_lattice N spins i j H) as H'.
  destruct (cell_at_in_range false _ _ _ _ H' Ha Hb) as [Hc _].
  unfold cell_at in Hc.
  rewrite (is_lattice_len _ _ H'), (axis_in_range false N a Ha) in Hc.
  simpl in Hc. unfold flipped in Hc at 1.
  destruct (Z.eqb_spec a i) as [-> | Hai]; simpl.
  - rewrite list_lookup_alter_eq, Hrow in Hc. simpl in Hc.
    unfold len in Hc. rewrite length_alter in Hc. fold (len row) in Hc.
    rewrite Hlen, (axis_in_range false N b Hb) in Hc. simpl in Hc.
    destruct (Z.eqb_spec b j) as [-> | Hbj].
    + rewrite list_lookup_alter_eq, Hv in Hc. simpl in Hc.
      injection Hc as Hc. lia.
    + rewrite list_lookup_alter_ne, Hv in Hc by lia. congruence.
  - rewrite list_lookup_alter_ne, Hrow in Hc by lia. simpl in Hc.
    rewrite Hlen, (axis_in_range false N b Hb) in Hc. simpl in Hc.
    congruence.
Qed.

Lemma getitem1_in_range (a : list Z) (k : Z) :
  0 <= k < len a -> exists v, a !! Z.to_nat k = Some v /\ getitem1 a k = Ok v.
Proof.
  intros Hk. unfold getitem1. rewrite (axis_in_range true _ k Hk). simpl.
  destruct (lookup_lt_is_Some_2 a (Z.to_nat k)) as [v Hv].
  { unfold len in Hk. lia. }
  exists v. rewrite Hv. auto.
Qed.

Lemma setitem1_in_range (a : list Z) (k v : Z) :
  0 <= k < len a -> setitem1 a k v = Ok (<[Z.to_nat k := v]> a).
Proof.
  intros Hk. unfold setitem1. rewrite (axis_in_range true _ k Hk). reflexivity.
Qed.

(** ** The loop of [metropolis_hastings] *)

Lemma bind_assoc {A B C : Type} (m : result A) (f : A -> result B)
  (g : B -> result C) :
  (m ≫= f) ≫= g = m ≫= (fun a => f a ≫= g).
Proof. destruct m; reflexivity. Qed.

Lemma for_each_app {S : Type} (body : Z -> S -> result S) (l1 l2 : list Z)
  (st : S) :
  for_each body (l1 ++ l2) st = for_each body l1 st ≫= for_each body l2.
Proof.
  revert st. induction l1 as [| s l1 IH]; intros st; simpl; [reflexivity |].
  destruct (body s st) as [st' | e]; simpl; [apply IH | reflexivity].
Qed.

Lemma range_snoc (lo hi : Z) :
  lo <= hi -> range lo (hi + 1) = range lo hi ++ [hi].
Proof.
  intros H. unfold range.
  replace (hi + 1 - lo) with ((hi - lo) + 1) by lia.
  rewrite seqZ_app by lia. f_equal.
  replace (lo + (hi - lo)) with hi by lia. reflexivity.
Qed.

Section Run.

Variable oob : lattice -> Z -> Z -> result Z.
Variable W : environment.
Hypothesis W_ok : environment_ok W.

Lemma proposal_range (N : Z) (g : gen W) :
  0 < N -> 0 <= (proposal W N g).1.1 < N /\ 0 <= (proposal W N g).1.2 < N.
Proof.
  intros HN. unfold proposal.
  pose proof (randint_range W W_ok N g HN) as H1.
  destruct (randint W N g) as [x g1].
  pose proof (randint_range W W_ok N g1 HN) as H2.
  destruct (randint W N g1) as [y g2]. simpl in *. auto.
Qed.

(** One step, given the value [delta_e] returns at the proposed site. *)
Lemma mh_step_eq (N : Z) (beta : invtemp W) (s : Z) (st : sampler W)
  (dE prev : Z) :
  0 < N -> is_lattice N (spins st) = true -> 1 <= s < len (E_series st) ->
  delta_e oob (spins st) (proposal W N (rng st)).1.1
          (proposal W N (rng st)).1.2 1 = Ok dE ->
  E_series st !! Z.to_nat (s - 1) = Some prev ->
  let '(x, y, g) := proposal W N (rng st) in
  let '(yes, g') := accepts W beta dE g in
  mh_step oob W N beta s st
  = Ok {| rng := g';
          spins := if yes then flipped (spins st) x y else spins st;
          E_series := <[Z.to_nat s := if yes then prev + dE else prev]>
                        (E_series st) |}.
Proof.
  intros HN Hl Hs HdE Hprev.
  pose proof (proposal_range N (rng st) HN) as [Hx Hy].
  unfold mh_step, np_random_randint, proposal in *.
  destruct (Z.leb_spec N 0) as [? | _]; [lia |]. simpl.
  destruct (randint W N (rng st)) as [x g1]. simpl.
  destruct (randint W N g1) as [y g2]. simpl in *.
  rewrite HdE. simpl.
  destruct (accepts W beta dE g2) as [yes g3].
  assert (getitem1 (E_series st) (s - 1) = Ok prev) as ->.
  { destruct (getitem1_in_range (E_series st) (s - 1)) as (v & Hv & ->); [lia |].
    congruence. }
  destruct yes; simpl.
  - rewrite (imul2_in_range N) by assumption. simpl.
    rewrite setitem1_in_range by lia. reflexivity.
  - rewrite setitem1_in_range by lia. reflexivity.
Qed.

(** A step keeps the grid a spin grid and the length of the series. *)
Lemma mh_step_run_state (N n_steps : Z) (beta : invtemp W) (s : Z)
  (st : sampler W) (dE : Z) :
  0 < N -> run_state N n_steps st -> 1 <= s < n_steps ->
  delta_e oob (spins st) (proposal W N (rng st)).1.1
          (proposal W N (rng st)).1.2 1 = Ok dE ->
  exists st', mh_step oob W N beta s st = Ok st' /\ run_state N n_steps st'.
Proof.
  intros HN [Hl Hlen] Hs HdE.
  destruct (getitem1_in_range (E_series st) (s - 1)) as (prev & Hprev & _);
    [lia |].
  pose proof (mh_step_eq N beta s st dE prev HN Hl ltac:(lia) HdE Hprev) as Heq.
  destruct (proposal W N (rng st)) as [[x y] g].
  destruct (accepts W beta dE g) as [yes g'].
  eexists. split; [exact Heq |].
  unfold run_state, len. simpl. rewrite length_insert. split; [| exact Hlen].
  destruct yes; [apply flipped_is_lattice |]; assumption.
Qed.

Lemma mh_upto_succ (N n_steps : Z) (beta : invtemp W) (k : Z) (g : gen W) :
  0 <= k ->
  mh_upto oob W N n_steps beta (k + 1) g
  = mh_upto oob W N n_steps beta k g ≫= mh_step oob W N beta (k + 1).
Proof.
  intros Hk. unfold mh_upto.
  rewrite (range_snoc 1 (k + 1)) by lia.
  rewrite bind_assoc. destruct (mh_init oob W N n_steps g) as [st | e]; simpl;
    [| reflexivity].
  rewrite for_each_app.
  destruct (for_each _ (range 1 (k + 1)) st) as [st' | e]; simpl;
    [| reflexivity].
  destruct (mh_step oob W N beta (k + 1) st'); reflexivity.
Qed.

Lemma mh_init_eq (N n_steps : Z) (g : gen W) (e0 : Z) :
  0 <= N -> 1 <= n_steps ->
  total_mag_e oob (choice W N g).1 1 = Ok e0 ->
  mh_init oob W N n_steps g
  = Ok {| rng := (choice W N g).2; spins := (choice W N g).1;
          E_series := <[0%nat := e0]> (replicate (Z.to_nat n_steps) 1) |}.
Proof.
  intros HN Hn He. unfold mh_init, np_random_choice, np_ones.
  destruct (Z.ltb_spec N 0) as [? | _]; [lia |].
  destruct (Z.ltb_spec n_steps 0) as [? | _]; [lia |]. simpl.
  destruct (choice W N g) as [L g1]. simpl in *. rewrite He. simpl.
  rewrite setitem1_in_range by (unfold len; rewrite length_replicate; lia).
  reflexivity.
Qed.

Lemma accepts_eq (beta : invtemp W) (dE : Z) (g : gen W) :
  accepts W beta dE g
  = ((dE <? 0) || exp_gt W beta dE (rand W g).1,
     if dE <? 0 then g else (rand W g).2).
Proof.
  unfold accepts. destruct (dE <? 0); [reflexivity |].
  destruct (rand W g); reflexivity.
Qed.

Lemma metropolis_hastings_upto (N n_steps : Z) (beta : invtemp W) (g : gen W) :
  metropolis_hastings oob W N n_steps beta g
  = mh_upto oob W N n_steps beta (n_steps - 1) g
      ≫= (fun st => Ok (spins st, E_series st)).
Proof.
  unfold metropolis_hastings, mh_upto.
  replace (n_steps - 1 + 1) with n_steps by lia.
  rewrite bind_assoc. reflexivity.
Qed.

Section Steps.

Variables (N n_steps : Z) (beta : invtemp W) (g : gen W) (e0 : Z).
Hypothesis N_pos : 0 < N.
Hypothesis n_steps_ge_1 : 1 <= n_steps.
Hypothesis initial_energy : total_mag_e oob (choice W N g).1 1 = Ok e0.
Hypothesis delta_e_returns :
  forall spins i j, is_lattice N spins = true -> 0 <= i < N -> 0 <= j < N ->
  exists dE, delta_e oob spins i j 1 = Ok dE.

Lemma mh_upto_0 :
  mh_upto oob W N n_steps beta 0 g
  = Ok {| rng := (choice W N g).2; spins := (choice W N g).1;
          E_series := <[0%nat := e0]> (replicate (Z.to_nat n_steps) 1) |}.
Proof.
  unfold mh_upto.
  rewrite (mh_init_eq N n_steps g e0) by (assumption || lia). reflexivity.
Qed.

Lemma mh_upto_run_state (k : Z) :
  0 <= k -> k <= n_steps - 1 ->
  exists st, mh_upto oob W N n_steps beta k g = Ok st /\ run_state N n_steps st.
Proof.
  intros Hk. pattern k. apply natlike_ind; [| | exact Hk]; clear k Hk.
  - intros _. eexists. split; [apply mh_upto_0 |].
    split; simpl.
    + apply (choice_is_lattice W W_ok). lia.
    + unfold len. rewrite length_insert, length_replicate. lia.
  - intros k Hk IH Hle. destruct IH as (st & Hst & Hrun); [lia |].
    unfold Z.succ. rewrite mh_upto_succ, Hst by assumption. simpl.
    pose proof (proposal_range N (rng st) N_pos) as [Hx Hy].
    destruct (delta_e_returns (spins st) _ _ (proj1 Hrun) Hx Hy) as [dE HdE].
    apply (mh_step_run_state N n_steps beta (k + 1) st dE);
      [assumption | assumption | lia | exact HdE].
Qed.

(** What step [s] of the run does to the state the run is in. *)
Lemma mh_upto_step (s : Z) :
  1 <= s <= n_steps - 1 ->
  exists st prev,
    mh_upto oob W N n_steps beta (s - 1) g = Ok st
    /\ run_state N n_steps st
    /\ E_series st !! Z.to_nat (s - 1) = Some prev
    /\ let '(i, j, g1) := proposal W N (rng st) in
       0 <= i < N /\ 0 <= j < N
       /\ exists dE,
           delta_e oob (spins st) i j 1 = Ok dE
           /\ let yes := (dE <? 0) || exp_gt W beta dE (rand W g1).1 in
              mh_upto oob W N n_steps beta s g
              = Ok {| rng := if dE <? 0 then g1 else (rand W g1).2;
                      spins := if yes then flipped (spins st) i j
                               else spins st;
                      E_series :=
                        <[Z.to_nat s := if yes then prev + dE else prev]>
                          (E_series st) |}.
Proof.
  intros Hs.
  destruct (mh_upto_run_state (s - 1)) as (st & Hst & Hrun); [lia | lia |].
  destruct Hrun as [Hl Hlen].
  destruct (getitem1_in_range (E_series st) (s - 1)) as (prev & Hprev & _);
    [lia |].
  exists st, prev. repeat split; try assumption.
  pose proof (proposal_range N (rng st) N_pos) as [Hx Hy].
  destruct (delta_e_returns (spins st) _ _ Hl Hx Hy) as [dE HdE].
  pose proof (mh_step_eq N beta s st dE prev N_pos Hl ltac:(lia) HdE Hprev)
    as Hstep.
  destruct (proposal W N (rng st)) as [[i j] g1]. simpl in *.
  rewrite accepts_eq in Hstep.
  split; [lia |]. split; [lia |]. exists dE. split; [exact HdE |].
  replace s with (s - 1 + 1) at 1 by lia.
  rewrite mh_upto_succ, Hst by lia. simpl.
  replace (s - 1 + 1) with s by lia. exact Hstep.
Qed.

(** Later steps leave the earlier entries of the series as they are. *)
Lemma mh_upto_series_stable (k : Z) (d n : nat) (st st' : sampler W) :
  0 <= k -> k + Z.of_nat d <= n_steps - 1 -> Z.of_nat n <= k ->
  mh_upto oob W N n_steps beta k g = Ok st ->
  mh_upto oob W N n_steps beta (k + Z.of_nat d) g = Ok st' ->
  E_series st' !! n = E_series st !! n.
Proof.
  intros Hk. revert st'. induction d as [| d IH]; intros st' Hle Hn Hst Hst'.
  - replace (k + Z.of_nat 0) with k in Hst' by lia. congruence.
  - destruct (mh_upto_step (k + Z.of_nat (S d))) as (st1 & prev & Hst1 & _ & _ & H);
      [lia |].
    replace (k + Z.of_nat (S d) - 1) with (k + Z.of_nat d) in Hst1 by lia.
    specialize (IH st1 ltac:(lia) Hn Hst Hst1).
    destruct (proposal W N (rng st1)) as [[i j] g1].
    destruct H as (_ & _ & dE & _ & H). rewrite H in Hst'.
    injection Hst' as <-. simpl.
    rewrite list_lookup_insert_ne by lia. exact IH.
Qed.

(** The returned lattice and every lattice of the run are spin grids. *)
Lemma run_spin_lattice :
  (exists L E, metropolis_hastings oob W N n_steps beta g = Ok (L, E)
               /\ is_lattice N L = true)
  /\ (forall k, 0 <= k <= n_steps - 1 ->
      exists st, mh_upto oob W N n_steps beta k g = Ok st
                 /\ is_lattice N (spins st) = true).
Proof.
  split.
  - destruct (mh_upto_run_state (n_steps - 1)) as (st & Hst & Hl & _);
      [lia | lia |].
    exists (spins st), (E_series st).
    rewrite metropolis_hastings_upto, Hst. auto.
  - intros k Hk.
    destruct (mh_upto_run_state k) as (st & Hst & Hl & _); [lia | lia |].
    eauto.
Qed.

(** Step [s] of the run: the acceptance test and its two outcomes. *)
Lemma run_step (s : Z) :
  1 <= s <= n_steps - 1 ->
  exists st prev,
    mh_upto oob W N n_steps beta (s - 1) g = Ok st
    /\ E_series st !! Z.to_nat (s - 1) = Some prev
    /\ let '(i, j, g1) := proposal W N (rng st) in
       exists dE,
         delta_e oob (spins st) i j 1 = Ok dE
         /\ let yes := (dE <? 0) || exp_gt W beta dE (rand W g1).1 in
            mh_upto oob W N n_steps beta s g
            = Ok {| rng := if dE <? 0 then g1 else (rand W g1).2;
                    spins := if yes then flipped (spins st) i j else spins st;
                    E_series :=
                      <[Z.to_nat s := if yes then prev + dE else prev]>
                        (E_series st) |}
            /\ forall a b, 0 <= a < N -> 0 <= b < N ->
               cell (flipped (spins st) i j) a b
               = if (a =? i) && (b =? j) then - cell (spins st) a b
                 else cell (spins st) a b.
Proof.
  intros Hs.
  destruct (mh_upto_step s Hs) as (st & prev & Hst & [Hl _] & Hprev & H).
  exists st, prev. repeat split; try assumption.
  destruct (proposal W N (rng st)) as [[i j] g1].
  destruct H as (Hi & Hj & dE & HdE & Hstep).
  exists dE. split; [exact HdE |]. split; [exact Hstep |].
  intros a b Ha Hb. apply (cell_flipped N); assumption.
Qed.

(** The returned series: its length, its first entry and its recurrence. *)
Lemma run_energy_series :
  exists L E,
    metropolis_hastings oob W N n_steps beta g = Ok (L, E)
    /\ len E = n_steps
    /\ E !! 0%nat = Some e0
    /\ forall s, 1 <= s <= n_steps - 1 ->
       exists st st' prev,
         mh_upto oob W N n_steps beta (s - 1) g = Ok st
         /\ mh_upto oob W N n_steps beta s g = Ok st'
         /\ E !! Z.to_nat (s - 1) = Some prev
         /\ let '(i, j, _) := proposal W N (rng st) in
            exists dE,
              delta_e oob (spins st) i j 1 = Ok dE
              /\ (spins st' = flipped (spins st) i j
                  /\ E !! Z.to_nat s = Some (prev + dE)
                  \/ spins st' = spins st
                     /\ E !! Z.to_nat s = Some prev).
Proof.
  destruct (mh_upto_run_state (n_steps - 1)) as (stf & Hstf & _ & Hlen);
    [lia | lia |].
  exists (spins stf), (E_series stf).
  rewrite metropolis_hastings_upto, Hstf. simpl.
  split; [reflexivity |]. split; [exact Hlen |]. split.
  - rewrite (mh_upto_series_stable 0 (Z.to_nat (n_steps - 1)) 0%nat _ stf
               ltac:(lia) ltac:(lia) ltac:(lia) mh_upto_0).
    + simpl. apply list_lookup_insert_eq. rewrite length_replicate. lia.
    + rewrite <- Hstf. f_equal. lia.
  - intros s Hs.
    destruct (mh_upto_step s Hs) as (st & prev & Hst & [Hl Hlen'] & Hprev & H).
    destruct (mh_upto_run_state s) as (st' & Hst' & _ & Hlen''); [lia | lia |].
    exists st, st', prev. split; [exact Hst |]. split; [exact Hst' |].
    assert (mh_upto oob W N n_steps beta
              (s + Z.of_nat (Z.to_nat (n_steps - 1 - s))) g = Ok stf) as Hf.
    { rewrite <- Hstf. f_equal. lia. }
    assert (mh_upto oob W N n_steps beta
              (s - 1 + Z.of_nat (Z.to_nat (n_steps - s))) g = Ok stf) as Hf'.
    { rewrite <- Hstf. f_equal. lia. }
    rewrite (mh_upto_series_stable (s - 1) (Z.to_nat (n_steps - s))
               (Z.to_nat (s - 1)) st stf
               ltac:(lia) ltac:(lia) ltac:(lia) Hst Hf').
    rewrite (mh_upto_series_stable s (Z.to_nat (n_steps - 1 - s))
               (Z.to_nat s) st' stf
               ltac:(lia) ltac:(lia) ltac:(lia) Hst' Hf).
    split; [exact Hprev |].
    destruct (proposal W N (rng st)) as [[i j] g1].
    destruct H as (Hi & Hj & dE & HdE & Hstep).
    exists dE. split; [exact HdE |].
    rewrite Hstep in Hst'. injection Hst' as <-. simpl.
    rewrite list_lookup_insert_eq by (unfold len in Hlen'; lia).
    destruct (_ || _); [left | right]; auto.
Qed.

End Steps.

End Run.

(** ** The scripted environment keeps the contract of the draws *)

Lemma uniform_lattice_is_lattice (N v : Z) :
  0 <= N -> is_spin v = true -> is_lattice N (uniform_lattice N v) = true.
Proof.
  intros HN Hv. apply is_lattice_Forall. unfold uniform_lattice, len.
  rewrite length_replicate. split; [lia |].
  apply Forall_replicate. rewrite length_replicate. split; [lia |].
  apply Forall_replicate. exact Hv.
Qed.

Lemma scripted_ok : environment_ok scripted.
Proof.
  split; simpl.
  - intros N g HN. destruct (is_lattice N (grid g)) eqn:Hg; [exact Hg |].
    apply uniform_lattice_is_lattice; [exact HN | reflexivity].
  - intros N g HN. apply Z.mod_pos_bound. exact HN.
Qed.

(** ** Runs of [metropolis_hastings] *)

(** When the unchecked loads yield a value, [total_mag_e] returns on every
    grid. *)
Lemma mapM_returns {A B : Type} (f : A -> result B) (l : list A) :
  (forall x, exists y, f x = Ok y) -> exists ys, mapM f l = Ok ys.
Proof.
  intros Hf. induction l as [| x l [ys IH]]; simpl; [eauto |].
  destruct (Hf x) as [y ->]. rewrite IH. simpl. eauto.
Qed.

Lemma total_mag_e_returns_unchecked oob (spins : lattice) (J : Z) :
  (forall s i j, exists v, oob s i j = Ok v) ->
  exists e, total_mag_e oob spins J = Ok e.
Proof.
  intros Hoob.
  assert (forall i j, exists v, getitem2 oob true spins i j = Ok v) as Hrd.
  { intros i j. unfold getitem2. destruct (cell_at true spins i j); eauto. }
  assert (forall i j, exists e, calc_positional_e_body oob spins i j = Ok e) as Hb.
  { intros i j. unfold calc_positional_e_body.
    destruct (i =? 0), (i =? shape0 spins - 1), (j =? 0), (j =? shape0 spins - 1);
    repeat match goal with
      | |- context [getitem2 oob true spins ?a ?b] =>
          let v := fresh "v" in
          destruct (Hrd a b) as [v ->]; simpl
      end; eauto. }
  unfold total_mag_e, calc_positional_e.
  destruct (mapM_returns
              (fun i => mapM (fun j => calc_positional_e_body oob spins i j)
                             (range 0 (shape0 spins)))
              (range 0 (shape0 spins))) as [E ->].
  { intros i. apply mapM_returns. intros j. apply Hb. }
  simpl. eauto.
Qed.


Lemma delta_e_returns_unchecked oob (spins : lattice) (i j J : Z) :
  unchecked oob -> exists dE, delta_e oob spins i j J = Ok dE.
Proof.
  intros Hoob.
  assert (forall a b, exists v, getitem2 oob true spins a b = Ok v) as Hrd.
  { intros a b. unfold getitem2. destruct (cell_at true spins a b); eauto. }
  unfold delta_e.
  destruct (i =? 0), (i =? shape0 spins - 1), (j =? 0), (j =? shape0 spins - 1);
  repeat match goal with
    | |- context [getitem2 oob true spins ?a ?b] =>
        let v := fresh "v" in
        destruct (Hrd a b) as [v ->]; simpl
    end; eauto.
Qed.

(** With NumPy's checked reads too, a run on a grid of side two meets no
    read outside the grid. *)
Lemma total_mag_e_returns_side_2 oob (spins : lattice) (J : Z) :
  is_lattice 2 spins = true -> exists e, total_mag_e oob spins J = Ok e.
Proof.
  intros H. eexists. apply total_mag_e_side_2. exact H.
Qed.

(** C6: for every [N > 0], [n_steps >= 1] and [beta], the call
    [metropolis_hastings(N, n_steps, beta)] returns an [N] x [N] lattice
    whose cells are all -1 or +1, and the lattice after each of the steps
    of the run is such a lattice too.  The reads compiled by numba do not
    raise. *)
Theorem metropolis_hastings_spin_lattice oob (W : environment)
  (N n_steps : Z) (beta : invtemp W) (g : gen W) :
  environment_ok W -> unchecked oob -> 0 < N -> 1 <= n_steps ->
  (exists L E, metropolis_hastings oob W N n_steps beta g = Ok (L, E)
               /\ is_lattice N L = true)
  /\ (forall k, 0 <= k <= n_steps - 1 ->
      exists st, mh_upto oob W N n_steps beta k g = Ok st
                 /\ is_lattice N (spins st) = true).
Proof.
  intros HW Hoob HN Hn.
  destruct (total_mag_e_returns_unchecked oob (choice W N g).1 1 Hoob) as [e0 He].
  apply (run_spin_lattice oob W HW N n_steps beta g e0 HN Hn He).
  intros spins i j _ _ _. apply delta_e_returns_unchecked, Hoob.
Qed.

Lemma metropolis_hastings_spin_lattice_witness :
  (exists L E, metropolis_hastings zero_oob scripted 2 3 tt script_2 = Ok (L, E)
               /\ is_lattice 2 L = true)
  /\ (forall k, 0 <= k <= 3 - 1 ->
      exists st, mh_upto zero_oob scripted 2 3 tt k script_2 = Ok st
                 /\ is_lattice 2 (spins st) = true).
Proof.
  apply (metropolis_hastings_spin_lattice zero_oob scripted 2 3 tt script_2);
    [apply scripted_ok | intros ? ? ?; eexists; reflexivity | lia | lia].
Defined.

(** With checked reads the same holds on grids of side at least two, as
    soon as the evaluation of [total_mag_e] on the initial lattice
    returns. *)
Lemma metropolis_hastings_spin_lattice_in_bounds oob (W : environment)
  (N n_steps : Z) (beta : invtemp W) (g : gen W) (e0 : Z) :
  environment_ok W -> 2 <= N -> 1 <= n_steps ->
  total_mag_e oob (choice W N g).1 1 = Ok e0 ->
  (exists L E, metropolis_hastings oob W N n_steps beta g = Ok (L, E)
               /\ is_lattice N L = true)
  /\ (forall k, 0 <= k <= n_steps - 1 ->
      exists st, mh_upto oob W N n_steps beta k g = Ok st
                 /\ is_lattice N (spins st) = true).
Proof.
  intros HW HN Hn He.
  apply (run_spin_lattice oob W HW N n_steps beta g e0 ltac:(lia) Hn He).
  intros spins i j Hl Hi Hj. eexists.
  apply (delta_e_periodic oob N); assumption.
Qed.

Lemma taped_ok : environment_ok taped.
Proof.
  split; simpl.
  - intros N g HN. unfold tape_choice. simpl.
    destruct (is_lattice N (tape_grid g)) eqn:Hg; [exact Hg |].
    apply uniform_lattice_is_lattice; [exact HN | reflexivity].
  - intros N g HN. apply Z.mod_pos_bound. exact HN.
Qed.

(** On the tape [tape_2] with [beta = 0.5] both steps propose a flip of
    energy 8: the draw 0.01 lies below [exp(-4)] and the flip is made, the
    draw 0.5 does not and the lattice stays. *)
Lemma metropolis_hastings_on_tape_2 :
  metropolis_hastings numpy_oob taped 2 3 0.5%float tape_2
  = Ok ([[-1; 1]; [1; 1]], [-16; -8; -8]).
Proof. vm_compute. reflexivity. Qed.

(** C3: in every run with [N > 0] and [n_steps >= 1], each step [s] with
    [1 <= s <= n_steps - 1] draws a site ([i], [j]) and computes
    [dE = delta_e(lattice, i, j, 1)]; the flip is accepted exactly when
    [dE < 0] or the uniform draw [u], made when [dE < 0] is false,
    satisfies [u < exp(-beta * dE)], the product and the comparison taken
    in binary64; on acceptance the cell ([i], [j]) and no other is negated
    and [E_series[s] = E_series[s-1] + dE]; on rejection the lattice is
    unchanged and [E_series[s] = E_series[s-1]]. *)
Theorem mh_step_accept_reject oob (G : Type)
  (choice : Z -> G -> lattice * G) (randint : Z -> G -> Z * G)
  (rand : G -> float * G) (np_exp : float -> float)
  (N n_steps : Z) (beta : float) (g : G) (s : Z) :
  let W := numpy_environment G choice randint rand np_exp in
  environment_ok W -> unchecked oob -> 0 < N -> 1 <= n_steps ->
  1 <= s <= n_steps - 1 ->
  exists st prev,
    mh_upto oob W N n_steps beta (s - 1) g = Ok st
    /\ E_series st !! Z.to_nat (s - 1) = Some prev
    /\ let '(i, j, g1) := proposal W N (rng st) in
       exists dE,
         delta_e oob (spins st) i j 1 = Ok dE
         /\ let u := (rand g1).1 in
            let yes :=
              (dE <? 0)
              || PrimFloat.ltb u
                   (np_exp (PrimFloat.mul (PrimFloat.opp beta) (float_of_Z dE)))
            in
            mh_upto oob W N n_steps beta s g
            = Ok {| rng := if dE <? 0 then g1 else (rand g1).2;
                    spins := if yes then flipped (spins st) i j else spins st;
                    E_series :=
                      <[Z.to_nat s := if yes then prev + dE else prev]>
                        (E_series st) |}
            /\ forall a b, 0 <= a < N -> 0 <= b < N ->
               cell (flipped (spins st) i j) a b
               = if (a =? i) && (b =? j) then - cell (spins st) a b
                 else cell (spins st) a b.
Proof.
  intros W HW Hoob HN Hn Hs.
  destruct (total_mag_e_returns_unchecked oob (choice N g).1 1 Hoob)
    as [e0 He].
  apply (run_step oob W HW N n_steps beta g e0 HN Hn He); [| exact Hs].
  intros spins i j _ _ _. apply delta_e_returns_unchecked, Hoob.
Qed.

Lemma mh_step_accept_reject_witness :
  exists st prev,
    mh_upto zero_oob taped 2 3 0.5%float (2 - 1) tape_2 = Ok st
    /\ E_series st !! Z.to_nat (2 - 1) = Some prev
    /\ let '(i, j, g1) := proposal taped 2 (rng st) in
       exists dE,
         delta_e zero_oob (spins st) i j 1 = Ok dE
         /\ let u := (tape_rand g1).1 in
            let yes :=
              (dE <? 0)
              || PrimFloat.ltb u
                   (exp_by_squaring
                      (PrimFloat.mul (PrimFloat.opp 0.5) (float_of_Z dE)))
            in
            mh_upto zero_oob taped 2 3 0.5%float 2 tape_2
            = Ok {| rng := if dE <? 0 then g1 else (tape_rand g1).2;
                    spins := if yes then flipped (spins st) i j else spins st;
                    E_series :=
                      <[Z.to_nat 2 := if yes then prev + dE else prev]>
                        (E_series st) |}
            /\ forall a b, 0 <= a < 2 -> 0 <= b < 2 ->
               cell (flipped (spins st) i j) a b
               = if (a =? i) && (b =? j) then - cell (spins st) a b
                 else cell (spins st) a b.
Proof.
  apply (mh_step_accept_reject zero_oob tape tape_choice tape_randint
           tape_rand exp_by_squaring 2 3 0.5%float tape_2 2);
    [apply taped_ok | intros ? ? ?; eexists; reflexivity | lia | lia | lia].
Defined.

(** C5, amended: for every [N > 0] and [n_steps >= 1] the series returned
    by [metropolis_hastings(N, n_steps, beta)] has length [n_steps], its
    entry 0 is [total_mag_e] (with [J = 1]) of the initial lattice, and
    for every [s] with [1 <= s <= n_steps - 1] its entry [s] is entry
    [s - 1] plus [delta_e] of the site proposed at step [s] when that step
    flipped the spin, and entry [s - 1] itself when it did not. *)
Theorem metropolis_hastings_energy_series oob (W : environment)
  (N n_steps : Z) (beta : invtemp W) (g : gen W) :
  environment_ok W -> unchecked oob -> 0 < N -> 1 <= n_steps ->
  exists L E e0,
    metropolis_hastings oob W N n_steps beta g = Ok (L, E)
    /\ len E = n_steps
    /\ total_mag_e oob (choice W N g).1 1 = Ok e0
    /\ E !! 0%nat = Some e0
    /\ forall s, 1 <= s <= n_steps - 1 ->
       exists st st' prev,
         mh_upto oob W N n_steps beta (s - 1) g = Ok st
         /\ mh_upto oob W N n_steps beta s g = Ok st'
         /\ E !! Z.to_nat (s - 1) = Some prev
         /\ let '(i, j, _) := proposal W N (rng st) in
            exists dE,
              delta_e oob (spins st) i j 1 = Ok dE
              /\ (spins st' = flipped (spins st) i j
                  /\ E !! Z.to_nat s = Some (prev + dE)
                  \/ spins st' = spins st
                     /\ E !! Z.to_nat s = Some prev).
Proof.
  intros HW Hoob HN Hn.
  destruct (total_mag_e_returns_unchecked oob (choice W N g).1 1 Hoob) as [e0 He].
  destruct (run_energy_series oob W HW N n_steps beta g e0 HN Hn He)
    as (L & E & Hrun & Hlen & H0 & Hrec).
  { intros spins i j _ _ _. apply delta_e_returns_unchecked, Hoob. }
  exists L, E, e0. auto.
Qed.

Lemma metropolis_hastings_energy_series_witness :
  exists L E e0,
    metropolis_hastings zero_oob scripted 2 3 tt script_2 = Ok (L, E)
    /\ len E = 3
    /\ total_mag_e zero_oob (choice scripted 2 script_2).1 1 = Ok e0
    /\ E !! 0%nat = Some e0
    /\ forall s, 1 <= s <= 3 - 1 ->
       exists st st' prev,
         mh_upto zero_oob scripted 2 3 tt (s - 1) script_2 = Ok st
         /\ mh_upto zero_oob scripted 2 3 tt s script_2 = Ok st'
         /\ E !! Z.to_nat (s - 1) = Some prev
         /\ let '(i, j, _) := proposal scripted 2 (rng st) in
            exists dE,
              delta_e zero_oob (spins st) i j 1 = Ok dE
              /\ (spins st' = flipped (spins st) i j
                  /\ E !! Z.to_nat s = Some (prev + dE)
                  \/ spins st' = spins st
                     /\ E !! Z.to_nat s = Some prev).
Proof.
  apply (metropolis_hastings_energy_series zero_oob scripted 2 3 tt script_2);
    [apply scripted_ok | intros ? ? ?; eexists; reflexivity | lia | lia].
Defined.

(** C5 as stated fails: the series accumulates [delta_e], which is not the
    change of [total_mag_e].  From the 2 x 2 grid below, the first step
    proposes (0, 0), where [dE = -8], and flips it: the series is
    [8, 0], while [total_mag_e] of the lattice after that step is 16. *)
Lemma energy_series_is_not_total_mag_e :
  metropolis_hastings zero_oob scripted 2 2 tt script_2
  = Ok ([[-1; -1]; [-1; -1]], [8; 0])
  /\ metropolis_hastings numpy_oob scripted 2 2 tt script_2
     = Ok ([[-1; -1]; [-1; -1]], [8; 0])
  /\ total_mag_e zero_oob [[1; -1]; [-1; -1]] 1 = Ok 8
  /\ delta_e zero_oob [[1; -1]; [-1; -1]] 0 0 1 = Ok (-8)
  /\ total_mag_e zero_oob [[-1; -1]; [-1; -1]] 1 = Ok 16
  /\ total_mag_e numpy_oob [[-1; -1]; [-1; -1]] 1 = Ok 16.
Proof. repeat split; reflexivity. Qed.

(** ** Arguments that are not positive *)

Lemma is_lattice_0 (spins : lattice) : is_lattice 0 spins = true -> spins = [].
Proof.
  intros H. apply is_lattice_len in H. unfold shape0, len in H.
  destruct spins; [reflexivity | simpl in H; lia].
Qed.

(** C7, amended: [metropolis_hastings] checks none of its arguments and
    knows no InvalidArgument error; a call with [N <= 0] or
    [n_steps <= 0] ends as the array operations it reaches decide.  With
    [N < 0] it ends with the ValueError of [np.random.choice], before a
    lattice exists; with [N >= 0] and [n_steps < 0] with the ValueError of
    [np.ones], after the lattice has been drawn; with [N >= 0] and
    [n_steps = 0] with the IndexError of the store into [E_series[0]],
    after the lattice has been drawn and [total_mag_e] evaluated on it;
    with [N = 0] and [n_steps >= 2] with the ValueError of
    [np.random.randint(0)] in the first step; and with [N = 0] and
    [n_steps = 1] it returns the empty lattice and the series [[0.]]. *)
Theorem metropolis_hastings_unchecked_arguments oob (W : environment)
  (N n_steps : Z) (beta : invtemp W) (g : gen W) :
  environment_ok W -> unchecked oob ->
  (N < 0 ->
     np_random_choice W N g = Raise ValueError
     /\ metropolis_hastings oob W N n_steps beta g = Raise ValueError)
  /\ (0 <= N -> n_steps < 0 ->
      np_random_choice W N g = Ok (choice W N g)
      /\ np_ones n_steps = Raise ValueError
      /\ metropolis_hastings oob W N n_steps beta g = Raise ValueError)
  /\ (0 <= N -> n_steps = 0 ->
      exists e0,
        total_mag_e oob (choice W N g).1 1 = Ok e0
        /\ setitem1 [] 0 e0 = Raise IndexError
        /\ mh_init oob W N n_steps g = Raise IndexError
        /\ metropolis_hastings oob W N n_steps beta g = Raise IndexError)
  /\ (N = 0 -> 2 <= n_steps ->
      metropolis_hastings oob W N n_steps beta g = Raise ValueError)
  /\ (N = 0 -> n_steps = 1 ->
      metropolis_hastings oob W N n_steps beta g = Ok ([], [0])).
Proof.
  intros HW Hoob. unfold metropolis_hastings, mh_init, np_random_choice.
  repeat split.
  - destruct (Z.ltb_spec N 0); [reflexivity | lia].
  - destruct (Z.ltb_spec N 0); [reflexivity | lia].
  - destruct (Z.ltb_spec N 0); [lia | reflexivity].
  - unfold np_ones. destruct (Z.ltb_spec n_steps 0); [reflexivity | lia].
  - destruct (Z.ltb_spec N 0); [lia |]. simpl.
    destruct (choice W N g) as [L g1]. unfold np_ones.
    destruct (Z.ltb_spec n_steps 0); [reflexivity | lia].
  - intros HN ->.
    destruct (total_mag_e_returns_unchecked oob (choice W N g).1 1 Hoob)
      as [e0 He].
    exists e0. destruct (Z.ltb_spec N 0); [lia |]. simpl.
    destruct (choice W N g) as [L g1]. simpl in *. rewrite He. simpl. auto.
  - intros -> Hn.
    pose proof (is_lattice_0 _ (choice_is_lattice W HW 0 g ltac:(lia))) as HL.
    simpl. destruct (choice W 0 g) as [L g1]. simpl in HL. subst L.
    unfold np_ones. destruct (Z.ltb_spec n_steps 0); [lia |]. simpl.
    rewrite setitem1_in_range
      by (unfold len; rewrite length_replicate; lia). simpl.
    unfold range. rewrite seqZ_cons by lia. reflexivity.
  - intros -> ->.
    pose proof (is_lattice_0 _ (choice_is_lattice W HW 0 g ltac:(lia))) as HL.
    simpl. destruct (choice W 0 g) as [L g1]. simpl in HL. subst L.
    reflexivity.
Qed.

Lemma metropolis_hastings_unchecked_arguments_witness :
  metropolis_hastings zero_oob scripted 2 0 tt script_2 = Raise IndexError.
Proof.
  destruct (metropolis_hastings_unchecked_arguments
              zero_oob scripted 2 0 tt script_2 scripted_ok
              ltac:(intros ? ? ?; eexists; reflexivity))
    as (_ & _ & H & _).
  destruct (H ltac:(lia) eq_refl) as (e0 & _ & _ & _ & Hrun). exact Hrun.
Defined.

(** C7 as stated fails: with [N = 0] and [n_steps = 1] the call returns,
    and with [n_steps = 0] it fails only when it stores the energy of the
    lattice it has drawn, with an IndexError. *)
Lemma metropolis_hastings_accepts_side_0 :
  metropolis_hastings numpy_oob scripted 0 1 tt script_2 = Ok ([], [0])
  /\ metropolis_hastings zero_oob scripted 0 1 tt script_2 = Ok ([], [0])
  /\ np_random_choice scripted 2 script_2 = Ok ([[1; -1]; [-1; -1]], script_2)
  /\ total_mag_e numpy_oob [[1; -1]; [-1; -1]] 1 = Ok 8
  /\ metropolis_hastings numpy_oob scripted 2 0 tt script_2 = Raise IndexError.
Proof. repeat split; reflexivity. Qed.

(** ** [average_magnetization] *)

Lemma average_magnetization_eq (spins : lattice) (N : Z) :
  N <> 0 ->
  average_magnetization spins N = Ok (magnetization_of_sum N (np_sum spins)).
Proof.
  intros HN. unfold average_magnetization, py_one_over.
  destruct (Z.eqb_spec (N ^ 2) 0) as [H0 | _]; [| reflexivity].
  rewrite Z.pow_2_r in H0. apply Z.eq_mul_0 in H0. lia.
Qed.










(** ** The Cython sampler *)

(** C10, evaluated where it fails.  From the 3 x 3 grid below both
    samplers propose the centre (1, 1).  There [delta_e] of the Python cell
    is -4 and [delta_e] of the Cython cell, which takes the neighbour sum
    from its [calc_positional_e], is -8; both flip the spin, and the two
    series move apart: the second entry is the first plus -4 in the one
    and plus -8 in the other, whatever the unchecked loads yield. *)
Theorem python_and_cython_runs_differ oob oob' :
  let L := [[1; -1; 1]; [-1; 1; -1]; [1; 1; 1]] in
  let g := {| grid := L; indices := [1; 1]; below := [] |} in
  is_lattice 3 L = true
  /\ delta_e oob L 1 1 1 = Ok (-4)
  /\ Cython.delta_e oob' L 1 1 1 = Ok (-8)
  /\ metropolis_hastings oob scripted 3 2 tt g
     = (e ← total_mag_e oob L 1;
        Ok ([[1; -1; 1]; [-1; -1; -1]; [1; 1; 1]], [e; e + -4]))
  /\ Cython.metropolis_hastings2 oob' scripted 3 2 tt g
     = (e ← Cython.total_mag_e oob' L 1;
        Ok ([[1; -1; 1]; [-1; -1; -1]; [1; 1; 1]], [e; e + -8]))
  /\ ~ (exists r, metropolis_hastings oob scripted 3 2 tt g = Ok r
                  /\ Cython.metropolis_hastings2 oob' scripted 3 2 tt g = Ok r).
Proof.
  cbv zeta.
  assert (metropolis_hastings oob scripted 3 2 tt
            {| grid := [[1; -1; 1]; [-1; 1; -1]; [1; 1; 1]];
               indices := [1; 1]; below := [] |}
          = (e ← total_mag_e oob [[1; -1; 1]; [-1; 1; -1]; [1; 1; 1]] 1;
             Ok ([[1; -1; 1]; [-1; -1; -1]; [1; 1; 1]], [e; e + -4]))) as Hpy.
  { vm_compute. destruct (oob _ _ _); reflexivity. }
  assert (Cython.metropolis_hastings2 oob' scripted 3 2 tt
            {| grid := [[1; -1; 1]; [-1; 1; -1]; [1; 1; 1]];
               indices := [1; 1]; below := [] |}
          = (e ← Cython.total_mag_e oob' [[1; -1; 1]; [-1; 1; -1]; [1; 1; 1]] 1;
             Ok ([[1; -1; 1]; [-1; -1; -1]; [1; 1; 1]], [e; e + -8]))) as Hcy.
  { vm_compute.
    repeat match goal with
      | |- context [match oob' ?a ?b ?c with _ => _ end] =>
          destruct (oob' a b c)
      end; reflexivity. }
  repeat split; try reflexivity; try assumption.
  intros (r & H1 & H2). rewrite Hpy in H1. rewrite Hcy in H2.
  destruct (total_mag_e oob _ 1) as [e |]; [| discriminate].
  destruct (Cython.total_mag_e oob' _ 1) as [e' |]; [| discriminate].
  simpl in H1, H2. rewrite <- H1 in H2. injection H2 as He He'. lia.
Qed.

(** On grids of side two, where no row lies strictly between the first
    and the last, the two samplers do the same. *)
Lemma cython_delta_e_side_2 oob oob' (spins : lattice) (i j J : Z) :
  is_lattice 2 spins = true -> 0 <= i < 2 -> 0 <= j < 2 ->
  Cython.delta_e oob' spins i j J = delta_e oob spins i j J.
Proof.
  intros H Hi Hj. destruct (is_lattice_2 _ H) as (a & b & c & d & ->).
  assert (i = 0 \/ i = 1) as [-> | ->] by lia;
    assert (j = 0 \/ j = 1) as [-> | ->] by lia; reflexivity.
Qed.

Lemma cython_total_mag_e_side_2 oob oob' (spins : lattice) (J : Z) :
  is_lattice 2 spins = true ->
  Cython.total_mag_e oob' spins J = total_mag_e oob spins J.
Proof.
  intros H. rewrite (total_mag_e_side_2 oob spins J H).
  destruct (is_lattice_2 _ H) as (a & b & c & d & ->).
  unfold Cython.total_mag_e.
  change (range 0 (shape0 [[a; b]; [c; d]])) with [0; 1]. cbn [for_each].
  change (Cython.calc_positional_e oob' [[a; b]; [c; d]] 0 0 J)
    with (Ok (A := Z) (c + c + b + b)).
  change (Cython.calc_positional_e oob' [[a; b]; [c; d]] 0 1 J)
    with (Ok (A := Z) (d + d + a + a)).
  change (Cython.calc_positional_e oob' [[a; b]; [c; d]] 1 0 J)
    with (Ok (A := Z) (a + a + d + d)).
  change (Cython.calc_positional_e oob' [[a; b]; [c; d]] 1 1 J)
    with (Ok (A := Z) (b + b + c + c)).
  simpl. f_equal. unfold np_sum, sum_list_Z. simpl. lia.
Qed.

Lemma for_each_ext {S : Type} (Inv : S -> Prop) (body body' : Z -> S -> result S)
  (l : list Z) (st : S) :
  (forall s st, In s l -> Inv st ->
     body' s st = body s st /\ forall st', body s st = Ok st' -> Inv st') ->
  Inv st -> for_each body' l st = for_each body l st.
Proof.
  revert st. induction l as [| s l IH]; intros st Hb Hst; simpl; [reflexivity |].
  destruct (Hb s st (or_introl eq_refl) Hst) as [-> Hinv].
  destruct (body s st) as [st' | e]; simpl; [| reflexivity].
  apply IH; [| apply Hinv; reflexivity].
  intros s' st'' Hs'. apply Hb. right. exact Hs'.
Qed.

Lemma cython_agrees_side_2 oob oob' (W : environment) (n_steps : Z)
  (beta : invtemp W) (g : gen W) :
  environment_ok W -> 1 <= n_steps ->
  Cython.metropolis_hastings2 oob' W 2 n_steps beta g
  = metropolis_hastings oob W 2 n_steps beta g.
Proof.
  intros HW Hn.
  pose proof (choice_is_lattice W HW 2 g ltac:(lia)) as HL.
  destruct (total_mag_e_returns_side_2 oob (choice W 2 g).1 1 HL) as [e0 He].
  unfold Cython.metropolis_hastings2, metropolis_hastings.
  rewrite (mh_init_eq oob W 2 n_steps g e0 ltac:(lia) Hn He).
  assert (Cython.mh2_init oob' W 2 n_steps g
          = Ok {| rng := (choice W 2 g).2; spins := (choice W 2 g).1;
                  E_series := <[0%nat := e0]> (replicate (Z.to_nat n_steps) 1) |})
    as ->.
  { unfold Cython.mh2_init, np_ones, np_random_choice.
    destruct (Z.ltb_spec n_steps 0) as [? | _]; [lia |]. simpl.
    destruct (choice W 2 g) as [L g1]. simpl in *.
    rewrite (cython_total_mag_e_side_2 oob oob' L 1 HL), He. simpl.
    rewrite setitem1_in_range by (unfold len; rewrite length_replicate; lia).
    reflexivity. }
  simpl.
  rewrite (for_each_ext (fun st => run_state 2 n_steps st)
             (mh_step oob W 2 beta) (Cython.mh2_step oob' W 2 beta)).
  - reflexivity.
  - intros s st Hs [Hl Hlen].
    apply list_elem_of_In in Hs. unfold range in Hs.
    apply elem_of_seqZ in Hs.
    pose proof (proposal_range W HW 2 (rng st) ltac:(lia)) as [Hx Hy].
    split.
    + unfold Cython.mh2_step, mh_step, np_random_randint, proposal in *.
      simpl. destruct (randint W 2 (rng st)) as [x g1]. simpl.
      destruct (randint W 2 g1) as [y g2]. simpl in *.
      rewrite (cython_delta_e_side_2 oob oob' (spins st) x y 1 Hl Hx Hy).
      reflexivity.
    + intros st' Hst'.
      destruct (mh_step_run_state oob W HW 2 n_steps beta s st
                  (2 * 1 * cell (spins st) (proposal W 2 (rng st)).1.1
                                           (proposal W 2 (rng st)).1.2
                   * neighborSum (spins st) (proposal W 2 (rng st)).1.1
                                            (proposal W 2 (rng st)).1.2))
        as (st'' & Hst'' & Hrun); [lia | split; assumption | lia | |].
      * apply (delta_e_periodic oob 2); try assumption. lia.
      * congruence.
  - split; simpl.
    + exact HL.
    + unfold len. rewrite length_insert, length_replicate. lia.
Qed.

(** * Further properties of the sampler's functions *)

(** ** [delta_e] *)

(** X1: on an [N] x [N] spin grid with [N >= 2], and for an integer [J]
    with [|J| <= 2^50], where the binary64 products are exact,
    [delta_e(spins, i, j, J)] reads inside the grid only and returns
    [2 * J * spins[i,j]] times the sum of the four neighbours of
    ([i], [j]), indices taken modulo [N]. *)
Theorem delta_e_periodic_neighbours oob (N : Z) (spins : lattice) (i j J : Z) :
  Z.abs J <= 2 ^ 50 ->
  2 <= N -> is_lattice N spins = true -> 0 <= i < N -> 0 <= j < N ->
  delta_e oob spins i j J
  = Ok (2 * J * cell spins i j
        * (cell spins ((i - 1) mod N) j + cell spins ((i + 1) mod N) j
           + cell spins i ((j - 1) mod N) + cell spins i ((j + 1) mod N))).
Proof.
  intros _ HN H Hi Hj. rewrite (delta_e_periodic oob N) by assumption.
  unfold neighborSum. rewrite (is_lattice_len _ _ H). reflexivity.
Qed.

Lemma delta_e_periodic_neighbours_witness :
  delta_e numpy_oob [[1; -1]; [-1; -1]] 0 1 3
  = Ok (2 * 3 * cell [[1; -1]; [-1; -1]] 0 1
        * (cell [[1; -1]; [-1; -1]] ((0 - 1) mod 2) 1
           + cell [[1; -1]; [-1; -1]] ((0 + 1) mod 2) 1
           + cell [[1; -1]; [-1; -1]] 0 ((1 - 1) mod 2)
           + cell [[1; -1]; [-1; -1]] 0 ((1 + 1) mod 2))).
Proof.
  apply (delta_e_periodic_neighbours numpy_oob 2 [[1; -1]; [-1; -1]] 0 1 3);
    [lia | lia | reflexivity | lia | lia].
Defined.

Lemma neighborSum_even (N : Z) (spins : lattice) (i j : Z) :
  0 < N -> is_lattice N spins = true -> 0 <= i < N -> 0 <= j < N ->
  exists k, -2 <= k <= 2 /\ neighborSum spins i j = 2 * k.
Proof.
  intros HN H Hi Hj. unfold neighborSum. rewrite (is_lattice_len _ _ H).
  pose proof (Z.mod_pos_bound (i - 1) N HN).
  pose proof (Z.mod_pos_bound (i + 1) N HN).
  pose proof (Z.mod_pos_bound (j - 1) N HN).
  pose proof (Z.mod_pos_bound (j + 1) N HN).
  destruct (cell_is_spin N spins ((i - 1) mod N) j) as [-> | ->]; try done;
  destruct (cell_is_spin N spins ((i + 1) mod N) j) as [-> | ->]; try done;
  destruct (cell_is_spin N spins i ((j - 1) mod N)) as [-> | ->]; try done;
  destruct (cell_is_spin N spins i ((j + 1) mod N)) as [-> | ->]; try done;
  first [exists (-2); lia | exists (-1); lia | exists 0; lia
        | exists 1; lia | exists 2; lia].
Qed.

(** X2: with [J = 1] and [N >= 2] the energy of a flip takes one of the
    five values -8, -4, 0, 4, 8. *)
Theorem delta_e_quantised oob (N : Z) (spins : lattice) (i j : Z) :
  2 <= N -> is_lattice N spins = true -> 0 <= i < N -> 0 <= j < N ->
  exists dE, delta_e oob spins i j 1 = Ok dE
             /\ (dE = -8 \/ dE = -4 \/ dE = 0 \/ dE = 4 \/ dE = 8).
Proof.
  intros HN H Hi Hj. eexists. split.
  - apply (delta_e_periodic oob N); assumption.
  - destruct (neighborSum_even N spins i j ltac:(lia) H Hi Hj) as (k & Hk & ->).
    destruct (cell_is_spin N spins i j H Hi Hj) as [-> | ->]; lia.
Qed.

Lemma delta_e_quantised_witness :
  exists dE, delta_e numpy_oob [[1; -1; 1]; [-1; 1; -1]; [1; 1; 1]] 1 1 1 = Ok dE
             /\ (dE = -8 \/ dE = -4 \/ dE = 0 \/ dE = 4 \/ dE = 8).
Proof.
  apply (delta_e_quantised numpy_oob 3 [[1; -1; 1]; [-1; 1; -1]; [1; 1; 1]] 1 1);
    [lia | reflexivity | lia | lia].
Defined.

Lemma neighborSum_flipped (N : Z) (spins : lattice) (i j : Z) :
  2 <= N -> is_lattice N spins = true -> 0 <= i < N -> 0 <= j < N ->
  neighborSum (flipped spins i j) i j = neighborSum spins i j.
Proof.
  intros HN H Hi Hj. unfold neighborSum.
  rewrite (is_lattice_len _ _ H),
    (is_lattice_len _ _ (flipped_is_lattice N spins i j H)).
  assert (0 < N) as HN' by lia.
  pose proof (Z.mod_pos_bound (i - 1) N HN').
  pose proof (Z.mod_pos_bound (i + 1) N HN').
  pose proof (Z.mod_pos_bound (j - 1) N HN').
  pose proof (Z.mod_pos_bound (j + 1) N HN').
  rewrite !(cell_flipped N) by assumption.
  pose proof (mod_pred N i Hi) as Hp. pose proof (mod_succ N i Hi) as Hs.
  pose proof (mod_pred N j Hj) as Hq. pose proof (mod_succ N j Hj) as Ht.
  destruct (Z.eqb_spec i 0), (Z.eqb_spec i (N - 1)),
           (Z.eqb_spec j 0), (Z.eqb_spec j (N - 1));
  repeat match goal with
    | |- context [?a =? ?b] => destruct (Z.eqb_spec a b); try lia
    end; simpl; reflexivity.
Qed.

(** X3: on a spin grid with [N >= 2], flipping the spin at ([i], [j])
    turns the energy of a flip at that site into its opposite: undoing a
    flip costs what the flip gained. *)
Theorem delta_e_after_flip oob (N : Z) (spins : lattice) (i j J : Z) :
  2 <= N -> is_lattice N spins = true -> 0 <= i < N -> 0 <= j < N ->
  exists dE spins',
    delta_e oob spins i j J = Ok dE
    /\ imul2 spins i j (-1) = Ok spins'
    /\ delta_e oob spins' i j J = Ok (- dE).
Proof.
  intros HN H Hi Hj.
  exists (2 * J * cell spins i j * neighborSum spins i j), (flipped spins i j).
  split; [apply (delta_e_periodic oob N); assumption |].
  split; [apply (imul2_in_range N); assumption |].
  rewrite (delta_e_periodic oob N) by (auto using flipped_is_lattice).
  rewrite (neighborSum_flipped N), (cell_flipped N) by assumption.
  rewrite !Z.eqb_refl. simpl. f_equal. lia.
Qed.

Lemma delta_e_after_flip_witness :
  exists dE spins',
    delta_e numpy_oob [[1; -1]; [-1; -1]] 0 0 1 = Ok dE
    /\ imul2 [[1; -1]; [-1; -1]] 0 0 (-1) = Ok spins'
    /\ delta_e numpy_oob spins' 0 0 1 = Ok (- dE).
Proof.
  apply (delta_e_after_flip numpy_oob 2 [[1; -1]; [-1; -1]] 0 0 1);
    [lia | reflexivity | lia | lia].
Defined.

(** ** The in-place flip [spins[i, j] *= -1] *)

Lemma flipped_flipped (spins : lattice) (i j : Z) :
  flipped (flipped spins i j) i j = spins.
Proof.
  unfold flipped. rewrite list_alter_alter_eq. apply list_alter_id.
  intros row. simpl. rewrite list_alter_alter_eq. apply list_alter_id.
  intros v. simpl. lia.
Qed.

(** X4: the flip is its own inverse: on a spin grid, [spins[i, j] *= -1]
    at a site of the grid, done twice, gives the grid back. *)
Theorem imul2_twice (N : Z) (spins : lattice) (i j : Z) :
  is_lattice N spins = true -> 0 <= i < N -> 0 <= j < N ->
  (spins' ← imul2 spins i j (-1); imul2 spins' i j (-1)) = Ok spins.
Proof.
  intros H Hi Hj. rewrite (imul2_in_range N) by assumption. simpl.
  rewrite (imul2_in_range N) by (auto using flipped_is_lattice).
  f_equal. apply flipped_flipped.
Qed.

Lemma imul2_twice_witness :
  (spins' ← imul2 [[1; -1]; [-1; -1]] 1 0 (-1); imul2 spins' 1 0 (-1))
  = Ok [[1; -1]; [-1; -1]].
Proof.
  apply (imul2_twice 2 [[1; -1]; [-1; -1]] 1 0); [reflexivity | lia | lia].
Defined.

Lemma axis_out_of_range (w : bool) (n k : Z) :
  n <= k \/ k < - n -> axis w n k = None.
Proof.
  intros Hk. unfold axis.
  destruct (Z.leb_spec 0 k), (Z.ltb_spec k n), (Z.leb_spec (- n) k),
    (Z.ltb_spec k 0), w; simpl; try lia; reflexivity.
Qed.

Lemma sum_list_Z_cons (x : Z) (l : list Z) :
  sum_list_Z (x :: l) = x + sum_list_Z l.
Proof. reflexivity. Qed.

Lemma np_sum_cons (row : list Z) (a : lattice) :
  np_sum (row :: a) = sum_list_Z row + np_sum a.
Proof. reflexivity. Qed.

Lemma sum_list_Z_alter (f : Z -> Z) (l : list Z) (n : nat) (x : Z) :
  l !! n = Some x ->
  sum_list_Z (alter f n l) = sum_list_Z l - x + f x.
Proof.
  revert n. induction l as [| y l IH]; intros [| n] Hn; try discriminate.
  - injection Hn as ->.
    change (alter f 0%nat (x :: l)) with (f x :: l).
    rewrite !sum_list_Z_cons. lia.
  - change (alter f (S n) (y :: l)) with (y :: alter f n l).
    rewrite !sum_list_Z_cons, (IH n Hn). lia.
Qed.

Lemma np_sum_alter (f : list Z -> list Z) (a : lattice) (n : nat)
  (row : list Z) :
  a !! n = Some row ->
  np_sum (alter f n a) = np_sum a - sum_list_Z row + sum_list_Z (f row).
Proof.
  revert n. induction a as [| r a IH]; intros [| n] Hn; try discriminate.
  - injection Hn as ->.
    change (alter f 0%nat (row :: a)) with (f row :: a).
    rewrite !np_sum_cons. lia.
  - change (alter f (S n) (r :: a)) with (r :: alter f n a).
    rewrite !np_sum_cons, (IH n Hn). lia.
Qed.

(** X5: a flip moves the sum of all spins, the numerator of the
    magnetization, by twice the flipped spin: after [spins[i, j] *= -1]
    the sum is the old sum minus [2 * spins[i, j]]. *)
Theorem np_sum_after_flip (N : Z) (spins : lattice) (i j : Z) :
  is_lattice N spins = true -> 0 <= i < N -> 0 <= j < N ->
  exists spins',
    imul2 spins i j (-1) = Ok spins'
    /\ np_sum spins' = np_sum spins - 2 * cell spins i j.
Proof.
  intros H Hi Hj. exists (flipped spins i j).
  split; [apply (imul2_in_range N); assumption |].
  destruct (is_lattice_lookup _ _ _ _ H Hi Hj) as (row & v & Hrow & Hlen & Hv & _).
  assert (cell spins i j = v) as ->.
  { destruct (cell_at_in_range false _ _ _ _ H Hi Hj) as [Hc _].
    unfold cell_at in Hc.
    rewrite (is_lattice_len _ _ H), (axis_in_range false N i Hi) in Hc.
    simpl in Hc. rewrite Hrow in Hc. simpl in Hc.
    rewrite Hlen, (axis_in_range false N j Hj) in Hc. simpl in Hc.
    congruence. }
  unfold flipped. rewrite (np_sum_alter _ _ _ row Hrow).
  rewrite (sum_list_Z_alter _ _ _ v Hv). lia.
Qed.

Lemma np_sum_after_flip_witness :
  exists spins',
    imul2 [[1; -1]; [-1; -1]] 0 0 (-1) = Ok spins'
    /\ np_sum spins' = np_sum [[1; -1]; [-1; -1]] - 2 * cell [[1; -1]; [-1; -1]] 0 0.
Proof.
  apply (np_sum_after_flip 2 [[1; -1]; [-1; -1]] 0 0); [reflexivity | lia | lia].
Defined.

(** ** The array of [calc_positional_e] *)

Lemma lookup_map {A B : Type} (f : A -> B) (l : list A) (n : nat) :
  map f l !! n = f <$> l !! n.
Proof.
  revert n. induction l as [| x l IH]; intros [| n]; simpl; auto.
Qed.

Lemma lookup_range_0 (N k : Z) :
  0 <= k < N -> range 0 N !! Z.to_nat k = Some k.
Proof.
  intros Hk. unfold range. rewrite lookup_seqZ_lt by lia. f_equal. lia.
Qed.

Lemma len_range_0 (N : Z) : 0 <= N -> len (range 0 N) = N.
Proof. intros HN. unfold len, range. rewrite length_seqZ. lia. Qed.

Lemma len_map {A B : Type} (f : A -> B) (l : list A) : len (map f l) = len l.
Proof. unfold len. rewrite length_map. reflexivity. Qed.

Lemma cell_at_table (f : Z -> Z -> Z) (N i j : Z) :
  0 <= i < N -> 0 <= j < N ->
  cell_at false (map (fun i => map (fun j => f i j) (range 0 N)) (range 0 N)) i j
  = Some (f i j).
Proof.
  intros Hi Hj. unfold cell_at, shape0.
  rewrite len_map, len_range_0 by lia.
  rewrite (axis_in_range false _ i Hi). simpl.
  rewrite lookup_map, (lookup_range_0 _ i Hi). simpl.
  rewrite len_map, len_range_0 by lia.
  rewrite (axis_in_range false _ j Hj). simpl.
  rewrite lookup_map, (lookup_range_0 _ j Hj). reflexivity.
Qed.

Lemma cell_positional_e_array oob (spins : lattice) (i j : Z) :
  0 <= i < shape0 spins -> 0 <= j < shape0 spins ->
  cell (positional_e_array oob spins) i j
  = value_or 0 (calc_positional_e_body oob spins i j).
Proof.
  intros Hi Hj. unfold cell, positional_e_array.
  rewrite (cell_at_table
             (fun i j => value_or 0 (calc_positional_e_body oob spins i j)))
    by assumption.
  reflexivity.
Qed.

(** X6: whenever [calc_positional_e] returns its array [E] for an
    [N] x [N] spin grid with [N >= 2], the entries of the first and of the
    last row are the periodic four-neighbour sums. *)
Theorem calc_positional_e_edge_rows oob (N : Z) (spins E : lattice) (i j J : Z) :
  2 <= N -> is_lattice N spins = true ->
  calc_positional_e oob spins J = Ok E ->
  i = 0 \/ i = N - 1 -> 0 <= j < N ->
  cell E i j = neighborSum spins i j.
Proof.
  intros HN H HE Hi Hj. rewrite (calc_positional_e_Ok _ _ _ _ HE).
  pose proof (is_lattice_len _ _ H) as Hlen.
  rewrite cell_positional_e_array by lia.
  rewrite (calc_positional_e_body_edge_row oob N) by assumption.
  reflexivity.
Qed.

Lemma calc_positional_e_edge_rows_witness :
  cell [[2; 4; 2]; [0; -4; 1]; [2; 4; 2]] 2 1
  = neighborSum [[1; 1; 1]; [-1; 1; -1]; [1; 1; 1]] 2 1.
Proof.
  apply (calc_positional_e_edge_rows zero_oob 3
           [[1; 1; 1]; [-1; 1; -1]; [1; 1; 1]] _ 2 1 1);
    [lia | reflexivity | reflexivity | lia | lia].
Defined.

(** X7: in that array, an entry in a row strictly between the first and
    the last and a column strictly between the first and the last is
    twice the sum of the left and right neighbours
    [spins[i, j-1] + spins[i, j+1]]; the rows above and below do not enter
    it. *)
Theorem calc_positional_e_inner_cells oob (N : Z) (spins E : lattice)
  (i j J : Z) :
  is_lattice N spins = true ->
  calc_positional_e oob spins J = Ok E ->
  0 < i < N - 1 -> 0 < j < N - 1 ->
  cell E i j = 2 * (cell spins i (j - 1) + cell spins i (j + 1)).
Proof.
  intros H HE Hi Hj. rewrite (calc_positional_e_Ok _ _ _ _ HE).
  pose proof (is_lattice_len _ _ H) as Hlen.
  rewrite cell_positional_e_array by lia.
  rewrite (calc_positional_e_body_inner oob N) by assumption.
  reflexivity.
Qed.

Lemma calc_positional_e_inner_cells_witness :
  cell [[2; 4; 2]; [0; -4; 1]; [2; 4; 2]] 1 1
  = 2 * (cell [[1; 1; 1]; [-1; 1; -1]; [1; 1; 1]] 1 (1 - 1)
         + cell [[1; 1; 1]; [-1; 1; -1]; [1; 1; 1]] 1 (1 + 1)).
Proof.
  apply (calc_positional_e_inner_cells zero_oob 3
           [[1; 1; 1]; [-1; 1; -1]; [1; 1; 1]] _ 1 1 1);
    [reflexivity | reflexivity | lia | lia].
Defined.

(** X8: on the first and on the last row [delta_e] and
    [calc_positional_e] agree: for an integer [J] with [|J| <= 2^50],
    where the binary64 products are exact, [delta_e(spins, i, j, J)] is
    [2 * J * spins[i,j]] times the entry [E[i,j]] of the array
    [calc_positional_e] returns. *)
Theorem delta_e_from_edge_rows oob (N : Z) (spins E : lattice) (i j J : Z) :
  Z.abs J <= 2 ^ 50 ->
  2 <= N -> is_lattice N spins = true ->
  calc_positional_e oob spins J = Ok E ->
  i = 0 \/ i = N - 1 -> 0 <= j < N ->
  delta_e oob spins i j J = Ok (2 * J * cell spins i j * cell E i j).
Proof.
  intros _ HN H HE Hi Hj. rewrite (calc_positional_e_Ok _ _ _ _ HE).
  pose proof (is_lattice_len _ _ H) as Hlen.
  rewrite cell_positional_e_array by lia.
  rewrite (calc_positional_e_body_edge_row oob N) by assumption.
  apply (delta_e_periodic oob N); try assumption. lia.
Qed.

Lemma delta_e_from_edge_rows_witness :
  delta_e numpy_oob [[1; -1]; [-1; -1]] 1 0 1
  = Ok (2 * 1 * cell [[1; -1]; [-1; -1]] 1 0 * cell [[-4; 0]; [0; -4]] 1 0).
Proof.
  apply (delta_e_from_edge_rows numpy_oob 2 [[1; -1]; [-1; -1]] _ 1 0 1);
    [lia | lia | reflexivity | reflexivity | lia | lia].
Defined.

(** ** Runs of [metropolis_hastings], continued *)

(** X9: with [n_steps = 1] the loop is not entered: the call returns the
    lattice [np.random.choice] drew, untouched, and the one-entry series
    holding its [total_mag_e]. *)
Theorem metropolis_hastings_one_step oob (W : environment) (N : Z)
  (beta : invtemp W) (g : gen W) (e0 : Z) :
  0 <= N -> total_mag_e oob (choice W N g).1 1 = Ok e0 ->
  metropolis_hastings oob W N 1 beta g = Ok ((choice W N g).1, [e0]).
Proof.
  intros HN He. unfold metropolis_hastings.
  rewrite (mh_init_eq oob W N 1 g e0 HN ltac:(lia) He). reflexivity.
Qed.

Lemma metropolis_hastings_one_step_witness :
  metropolis_hastings numpy_oob scripted 2 1 tt script_2
  = Ok ((choice scripted 2 script_2).1, [8]).
Proof.
  apply (metropolis_hastings_one_step numpy_oob scripted 2 tt script_2 8);
    [lia | reflexivity].
Defined.

Lemma delta_e_five_values oob (N : Z) (spins : lattice) (i j dE : Z) :
  2 <= N -> is_lattice N spins = true -> 0 <= i < N -> 0 <= j < N ->
  delta_e oob spins i j 1 = Ok dE ->
  dE = -8 \/ dE = -4 \/ dE = 0 \/ dE = 4 \/ dE = 8.
Proof.
  intros HN H Hi Hj HdE.
  rewrite (delta_e_periodic oob N) in HdE by assumption.
  injection HdE as <-.
  destruct (neighborSum_even N spins i j ltac:(lia) H Hi Hj) as (k & Hk & ->).
  destruct (cell_is_spin N spins i j H Hi Hj) as [-> | ->]; lia.
Qed.

(** X10: for [N >= 2], whenever the evaluation of [total_mag_e] on the
    initial lattice returns, consecutive entries of the returned series
    differ by -8, -4, 0, 4 or 8. *)
Theorem energy_series_increments oob (W : environment) (N n_steps : Z)
  (beta : invtemp W) (g : gen W) (e0 : Z) :
  environment_ok W -> 2 <= N -> 1 <= n_steps ->
  total_mag_e oob (choice W N g).1 1 = Ok e0 ->
  exists L E,
    metropolis_hastings oob W N n_steps beta g = Ok (L, E)
    /\ forall s, 1 <= s <= n_steps - 1 ->
       exists a b,
         E !! Z.to_nat (s - 1) = Some a /\ E !! Z.to_nat s = Some b
         /\ (b - a = -8 \/ b - a = -4 \/ b - a = 0 \/ b - a = 4 \/ b - a = 8).
Proof.
  intros HW HN Hn He.
  assert (forall spins i j, is_lattice N spins = true ->
            0 <= i < N -> 0 <= j < N ->
            exists dE, delta_e oob spins i j 1 = Ok dE) as Hret.
  { intros spins i j Hl Hi Hj. eexists.
    apply (delta_e_periodic oob N); assumption. }
  destruct (run_energy_series oob W HW N n_steps beta g e0 ltac:(lia) Hn He Hret)
    as (L & E & Hrun & _ & _ & Hrec).
  exists L, E. split; [exact Hrun |].
  intros s Hs. destruct (Hrec s Hs) as (st & st' & prev & Hst & _ & Hprev & H).
  destruct (mh_upto_run_state oob W HW N n_steps beta g e0 ltac:(lia) Hn He Hret
              (s - 1)) as (st1 & Hst1 & Hl & _); [lia | lia |].
  assert (st1 = st) as -> by congruence.
  pose proof (proposal_range W HW N (rng st) ltac:(lia)) as [Hi Hj].
  destruct (proposal W N (rng st)) as [[i j] g1]. simpl in Hi, Hj.
  destruct H as (dE & HdE & Hcases).
  pose proof (delta_e_five_values oob N (spins st) i j dE HN Hl Hi Hj HdE) as Hv.
  destruct Hcases as [[_ Hb] | [_ Hb]].
  - exists prev, (prev + dE). repeat split; try assumption. lia.
  - exists prev, prev. repeat split; try assumption. lia.
Qed.

Lemma energy_series_increments_witness :
  exists L E,
    metropolis_hastings numpy_oob scripted 2 3 tt script_2 = Ok (L, E)
    /\ forall s, 1 <= s <= 3 - 1 ->
       exists a b,
         E !! Z.to_nat (s - 1) = Some a /\ E !! Z.to_nat s = Some b
         /\ (b - a = -8 \/ b - a = -4 \/ b - a = 0 \/ b - a = 4 \/ b - a = 8).
Proof.
  apply (energy_series_increments numpy_oob scripted 2 3 tt script_2 8);
    [apply scripted_ok | lia | lia | reflexivity].
Defined.

(** ** The Cython cell, continued *)

Lemma cython_calc_positional_e_edge_row oob (N : Z) (spins : lattice)
  (i j J : Z) :
  2 <= N -> is_lattice N spins = true -> i = 0 \/ i = N - 1 -> 0 <= j < N ->
  Cython.calc_positional_e oob spins i j J = Ok (neighborSum spins i j).
Proof.
  intros HN H Hi Hj. assert (0 <= i < N) as Hi' by lia.
  unfold Cython.calc_positional_e, neighborSum.
  rewrite (is_lattice_len _ _ H), (mod_pred N i Hi'), (mod_succ N i Hi'),
    (mod_pred N j Hj), (mod_succ N j Hj).
  destruct (Z.eqb_spec i 0) as [Hi0 | Hi0];
    destruct (Z.eqb_spec i (N - 1)) as [HiN | HiN]; try lia;
  destruct (Z.eqb_spec j 0) as [Hj0 | Hj0];
    destruct (Z.eqb_spec j (N - 1)) as [HjN | HjN]; try lia;
  rewrite ?(getitem2_in_range oob false N) by (assumption || lia);
  simpl; f_equal; subst; try lia.
Qed.

(** X11: on the first and on the last row of an [N] x [N] spin grid with
    [N >= 2] the Cython [delta_e] returns what the Python [delta_e]
    returns. *)
Theorem cython_delta_e_edge_rows oob oob' (N : Z) (spins : lattice)
  (i j J : Z) :
  2 <= N -> is_lattice N spins = true -> i = 0 \/ i = N - 1 -> 0 <= j < N ->
  Cython.delta_e oob' spins i j J = delta_e oob spins i j J.
Proof.
  intros HN H Hi Hj. unfold Cython.delta_e.
  rewrite (getitem2_in_range oob' false N) by (assumption || lia). simpl.
  rewrite (cython_calc_positional_e_edge_row oob' N) by assumption. simpl.
  rewrite (delta_e_periodic oob N) by (assumption || lia). reflexivity.
Qed.

Lemma cython_delta_e_edge_rows_witness :
  Cython.delta_e zero_oob [[1; -1; 1]; [-1; 1; -1]; [1; 1; 1]] 2 0 1
  = delta_e numpy_oob [[1; -1; 1]; [-1; 1; -1]; [1; 1; 1]] 2 0 1.
Proof.
  apply (cython_delta_e_edge_rows numpy_oob zero_oob 3
           [[1; -1; 1]; [-1; 1; -1]; [1; 1; 1]] 2 0 1);
    [lia | reflexivity | lia | lia].
Defined.

(** X12: on a row strictly between the first and the last, and a column
    strictly between the first and the last, and for an integer-valued
    [J] with [|J| <= 2^50], where the binary64 products are exact, the
    Cython [delta_e] is [2 * J * spins[i,j]] times twice the sum of the
    left and right neighbours. *)
Theorem cython_delta_e_inner_cells oob (N : Z) (spins : lattice) (i j J : Z) :
  Z.abs J <= 2 ^ 50 ->
  is_lattice N spins = true -> 0 < i < N - 1 -> 0 < j < N - 1 ->
  Cython.delta_e oob spins i j J
  = Ok (2 * J * cell spins i j
        * (2 * (cell spins i (j - 1) + cell spins i (j + 1)))).
Proof.
  intros _ H Hi Hj. unfold Cython.delta_e, Cython.calc_positional_e.
  rewrite (is_lattice_len _ _ H).
  destruct (Z.eqb_spec i 0); destruct (Z.eqb_spec i (N - 1)); try lia.
  destruct (Z.eqb_spec j 0); destruct (Z.eqb_spec j (N - 1)); try lia.
  rewrite !(getitem2_in_range oob false N) by (assumption || lia).
  simpl. do 2 f_equal. lia.
Qed.

Lemma cython_delta_e_inner_cells_witness :
  Cython.delta_e zero_oob [[1; -1; 1]; [-1; 1; -1]; [1; 1; 1]] 1 1 1
  = Ok (2 * 1 * cell [[1; -1; 1]; [-1; 1; -1]; [1; 1; 1]] 1 1
        * (2 * (cell [[1; -1; 1]; [-1; 1; -1]; [1; 1; 1]] 1 (1 - 1)
                + cell [[1; -1; 1]; [-1; 1; -1]; [1; 1; 1]] 1 (1 + 1)))).
Proof.
  apply (cython_delta_e_inner_cells zero_oob 3
           [[1; -1; 1]; [-1; 1; -1]; [1; 1; 1]] 1 1 1);
    [lia | reflexivity | lia | lia].
Defined.

(** X13: on 2 x 2 lattices, for every [n_steps >= 1], the Cython sampler
    run from the same draws returns what the Python sampler returns, and
    both return. *)
Theorem python_and_cython_agree_side_2 oob oob' (W : environment)
  (n_steps : Z) (beta : invtemp W) (g : gen W) :
  environment_ok W -> 1 <= n_steps ->
  exists L E,
    metropolis_hastings oob W 2 n_steps beta g = Ok (L, E)
    /\ Cython.metropolis_hastings2 oob' W 2 n_steps beta g = Ok (L, E).
Proof.
  intros HW Hn.
  pose proof (choice_is_lattice W HW 2 g ltac:(lia)) as HL.
  destruct (total_mag_e_returns_side_2 oob (choice W 2 g).1 1 HL) as [e0 He].
  destruct (metropolis_hastings_spin_lattice_in_bounds
              oob W 2 n_steps beta g e0 HW ltac:(lia) Hn He)
    as [(L & E & Hrun & _) _].
  exists L, E. split; [exact Hrun |].
  rewrite (cython_agrees_side_2 oob oob' W n_steps beta g HW Hn). exact Hrun.
Qed.

Lemma python_and_cython_agree_side_2_witness :
  exists L E,
    metropolis_hastings numpy_oob scripted 2 3 tt script_2 = Ok (L, E)
    /\ Cython.metropolis_hastings2 zero_oob scripted 2 3 tt script_2 = Ok (L, E).
Proof.
  apply (python_and_cython_agree_side_2 numpy_oob zero_oob scripted 3 tt script_2);
    [apply scripted_ok | lia].
Defined.


(** ** [average_magnetization], continued *)

Lemma sum_list_Z_spins (row : list Z) :
  Forall (fun v => is_spin v = true) row ->
  - len row <= sum_list_Z row <= len row.
Proof.
  unfold len. induction 1 as [| v row Hv _ IH].
  - simpl. unfold sum_list_Z. simpl. lia.
  - rewrite sum_list_Z_cons. apply is_spin_cases in Hv. simpl length. lia.
Qed.

Lemma np_sum_rows (N : Z) (a : lattice) :
  0 <= N -> Forall (fun row => - N <= sum_list_Z row <= N) a ->
  - (len a * N) <= np_sum a <= len a * N.
Proof.
  intros HN. unfold len. induction 1 as [| row a Hrow _ IH].
  - unfold np_sum, sum_list_Z. simpl. lia.
  - rewrite np_sum_cons. simpl length. nia.
Qed.

Lemma np_sum_spins (N : Z) (spins : lattice) :
  is_lattice N spins = true -> - (N * N) <= np_sum spins <= N * N.
Proof.
  intros H. apply is_lattice_Forall in H as [Hlen Hrows].
  assert (0 <= N) as HN by (unfold len in Hlen; lia).
  cut (- (len spins * N) <= np_sum spins <= len spins * N);
    [rewrite Hlen; lia |].
  apply np_sum_rows; [exact HN |].
  eapply Forall_impl; [exact Hrows |].
  intros row [Hrow Hcells]. simpl. rewrite <- Hrow.
  apply sum_list_Z_spins. exact Hcells.
Qed.

Lemma magnetization_table :
  forallb
    (fun N =>
       forallb
         (fun k =>
            PrimFloat.leb (-1) (magnetization_of_sum N k)
            && PrimFloat.leb (magnetization_of_sum N k) 1)
         (seqZ (- (N * N)) (2 * (N * N) + 1)))
    (seqZ 1 40)
  = true.
Proof. vm_compute. reflexivity. Qed.

(** X14: for every side [1 <= N <= 40] and every [N] x [N] lattice of
    spins, [average_magnetization(lattice, N)] returns a float between
    -1.0 and 1.0, rounding included. *)
Theorem average_magnetization_within_unit (N : Z) (spins : lattice) :
  1 <= N <= 40 -> is_lattice N spins = true ->
  exists m, average_magnetization spins N = Ok m
            /\ PrimFloat.leb (-1) m = true /\ PrimFloat.leb m 1 = true.
Proof.
  intros HN H. rewrite average_magnetization_eq by lia.
  eexists. split; [reflexivity |].
  pose proof magnetization_table as Htab.
  rewrite forallb_forall in Htab. specialize (Htab N).
  rewrite <- list_elem_of_In, elem_of_seqZ in Htab.
  specialize (Htab ltac:(lia)).
  rewrite forallb_forall in Htab. specialize (Htab (np_sum spins)).
  rewrite <- list_elem_of_In, elem_of_seqZ in Htab.
  pose proof (np_sum_spins N spins H) as Hsum.
  specialize (Htab ltac:(lia)). simpl in Htab.
  apply andb_true_iff in Htab. exact Htab.
Qed.

Lemma average_magnetization_within_unit_witness :
  exists m, average_magnetization (uniform_lattice 7 1) 7 = Ok m
            /\ PrimFloat.leb (-1) m = true /\ PrimFloat.leb m 1 = true.
Proof.
  apply (average_magnetization_within_unit 7 (uniform_lattice 7 1));
    [lia | reflexivity].
Defined.

Lemma m_ser_table :
  forallb
    (fun k =>
       PrimFloat.leb (-0x1.999999999999ap-5) (magnetization_of_sum 20 k)
       && PrimFloat.leb (magnetization_of_sum 20 k) 0x1.999999999999ap-5)
    (seqZ (-20) 41)
  = true.
Proof. vm_compute. reflexivity. Qed.

(** X15: the value the loop of Task 6 stores for a 20 x 20 lattice of
    spins is the sum of the first row only, scaled by [1 / 20**2]: it lies
    between -0.05 and 0.05 whatever the lattice, the fully magnetized ones
    included. *)
Theorem m_ser_entry_first_row (C : lattice) :
  is_lattice 20 C = true ->
  exists row m,
    C !! 0%nat = Some row
    /\ m_ser_entry C
       = Ok (PrimFloat.mul (PrimFloat.div 1 400) (float_of_Z (sum_list_Z row)))
    /\ m_ser_entry C = Ok m
    /\ PrimFloat.leb (-0x1.999999999999ap-5) m = true
    /\ PrimFloat.leb m 0x1.999999999999ap-5 = true.
Proof.
  intros H.
  destruct (is_lattice_lookup 20 C 0 0 H ltac:(lia) ltac:(lia))
    as (row & v & Hrow & Hlen & _ & _).
  change (Z.to_nat 0) with 0%nat in Hrow.
  assert (- 20 <= sum_list_Z row <= 20) as Hsum.
  { cut (- len row <= sum_list_Z row <= len row); [lia |].
    apply sum_list_Z_spins.
    apply is_lattice_Forall in H as [_ Hrows].
    rewrite Forall_forall in Hrows.
    apply (Hrows row), (list_elem_of_lookup_2 _ _ _ Hrow). }
  pose proof m_ser_table as Htab.
  rewrite forallb_forall in Htab. specialize (Htab (sum_list_Z row)).
  rewrite <- list_elem_of_In, elem_of_seqZ in Htab.
  specialize (Htab ltac:(lia)). simpl in Htab.
  apply andb_true_iff in Htab.
  assert (m_ser_entry C = Ok (magnetization_of_sum 20 (sum_list_Z row))) as Hm.
  { unfold m_ser_entry. rewrite Hrow.
    rewrite average_magnetization_eq by lia.
    replace (np_sum [row]) with (sum_list_Z row); [reflexivity |].
    rewrite np_sum_cons. change (np_sum []) with 0. lia. }
  assert (magnetization_of_sum 20 (sum_list_Z row)
          = PrimFloat.mul (PrimFloat.div 1 400) (float_of_Z (sum_list_Z row)))
    as Hq.
  { unfold magnetization_of_sum. f_equal; vm_compute; reflexivity. }
  exists row. eexists. split; [exact Hrow |].
  split; [rewrite Hm, Hq; reflexivity |].
  split; [exact Hm |]. exact Htab.
Qed.

Lemma m_ser_entry_first_row_witness :
  exists row m,
    uniform_lattice 20 1 !! 0%nat = Some row
    /\ m_ser_entry (uniform_lattice 20 1)
       = Ok (PrimFloat.mul (PrimFloat.div 1 400) (float_of_Z (sum_list_Z row)))
    /\ m_ser_entry (uniform_lattice 20 1) = Ok m
    /\ PrimFloat.leb (-0x1.999999999999ap-5) m = true
    /\ PrimFloat.leb m 0x1.999999999999ap-5 = true.
Proof.
  apply (m_ser_entry_first_row (uniform_lattice 20 1)). reflexivity.
Defined.

(** ** The reads of [calc_positional_e] at the ends of a row *)

Lemma cell_at_wrap_last (N : Z) (spins : lattice) (i : Z) :
  is_lattice N spins = true -> 0 <= i < N ->
  cell_at true spins i (-1) = Some (cell spins i (N - 1)).
Proof.
  intros H Hi.
  destruct (is_lattice_lookup N spins i (N - 1) H Hi ltac:(lia))
    as (row & v & Hrow & Hlen & Hv & _).
  assert (cell spins i (N - 1) = v) as ->.
  { unfold cell, cell_at.
    rewrite (is_lattice_len _ _ H), (axis_in_range false N i Hi). simpl.
    rewrite Hrow. simpl.
    rewrite Hlen, (axis_in_range false N (N - 1)) by lia. simpl.
    rewrite Hv. reflexivity. }
  unfold cell_at.
  rewrite (is_lattice_len _ _ H), (axis_in_range true N i Hi). simpl.
  rewrite Hrow. simpl. rewrite Hlen.
  assert (axis true N (-1) = Some (Z.to_nat (N - 1))) as ->.
  { unfold axis.
    destruct (Z.leb_spec 0 (-1)), (Z.leb_spec (- N) (-1)); simpl; try lia.
    do 2 f_equal. lia. }
  simpl. exact Hv.
Qed.

Lemma cell_at_past_last (N : Z) (spins : lattice) (i : Z) :
  is_lattice N spins = true -> 0 <= i < N ->
  cell_at true spins i N = None.
Proof.
  intros H Hi.
  destruct (is_lattice_lookup N spins i 0 H Hi ltac:(lia))
    as (row & v & Hrow & Hlen & _ & _).
  unfold cell_at.
  rewrite (is_lattice_len _ _ H), (axis_in_range true N i Hi). simpl.
  rewrite Hrow. simpl. rewrite Hlen, axis_out_of_range by lia. reflexivity.
Qed.

Lemma getitem2_wrap_last oob (N : Z) (spins : lattice) (i : Z) :
  is_lattice N spins = true -> 0 <= i < N ->
  getitem2 oob true spins i (-1) = Ok (cell spins i (N - 1)).
Proof.
  intros H Hi. unfold getitem2. rewrite (cell_at_wrap_last N) by assumption.
  reflexivity.
Qed.

Lemma getitem2_past_last oob (N : Z) (spins : lattice) (i : Z) :
  is_lattice N spins = true -> 0 <= i < N ->
  getitem2 oob true spins i N = oob spins i N.
Proof.
  intros H Hi. unfold getitem2. rewrite (cell_at_past_last N) by assumption.
  reflexivity.
Qed.

(** X16: in a row strictly between the first and the last, the loop body
    of [calc_positional_e] reads [spins[i, -1]] at column 0, which wraps to
    the last column, and stores twice the sum of the two periodic column
    neighbours; at the last column it reads [spins[i, N]], the one read of
    the function that falls outside the array, and stores
    [spins[i, N-2]] twice, that read's value and [spins[i, 0]]. *)
Theorem calc_positional_e_row_ends oob (N : Z) (spins : lattice) (i : Z) :
  is_lattice N spins = true -> 0 < i < N - 1 ->
  calc_positional_e_body oob spins i 0
  = Ok (2 * (cell spins i (N - 1) + cell spins i 1))
  /\ calc_positional_e_body oob spins i (N - 1)
     = (v ← oob spins i N;
        Ok (cell spins i (N - 2) + v + cell spins i (N - 2) + cell spins i 0)).
Proof.
  intros H Hi. unfold calc_positional_e_body.
  rewrite (is_lattice_len _ _ H).
  destruct (Z.eqb_spec i 0); destruct (Z.eqb_spec i (N - 1)); try lia.
  split.
  - change (0 - 1) with (-1). change (0 =? 0) with true. cbv iota.
    rewrite (getitem2_wrap_last oob N) by (assumption || lia).
    rewrite !(getitem2_in_range oob true N) by (assumption || lia).
    simpl. change (0 + 1) with 1. f_equal. lia.
  - destruct (Z.eqb_spec (N - 1) 0); [lia |].
    rewrite Z.eqb_refl.
    replace (N - 1 + 1) with N by lia. replace (N - 1 - 1) with (N - 2) by lia.
    rewrite (getitem2_past_last oob N) by (assumption || lia).
    rewrite !(getitem2_in_range oob true N) by (assumption || lia).
    simpl. destruct (oob spins i N); reflexivity.
Qed.

Lemma calc_positional_e_row_ends_witness :
  calc_positional_e_body zero_oob [[1; 1; 1]; [-1; 1; -1]; [1; 1; 1]] 1 0
  = Ok (2 * (cell [[1; 1; 1]; [-1; 1; -1]; [1; 1; 1]] 1 (3 - 1)
             + cell [[1; 1; 1]; [-1; 1; -1]; [1; 1; 1]] 1 1))
  /\ calc_positional_e_body zero_oob [[1; 1; 1]; [-1; 1; -1]; [1; 1; 1]] 1 (3 - 1)
     = (v ← zero_oob [[1; 1; 1]; [-1; 1; -1]; [1; 1; 1]] 1 3;
        Ok (cell [[1; 1; 1]; [-1; 1; -1]; [1; 1; 1]] 1 (3 - 2) + v
            + cell [[1; 1; 1]; [-1; 1; -1]; [1; 1; 1]] 1 (3 - 2)
            + cell [[1; 1; 1]; [-1; 1; -1]; [1; 1; 1]] 1 0)).
Proof.
  apply (calc_positional_e_row_ends zero_oob 3
           [[1; 1; 1]; [-1; 1; -1]; [1; 1; 1]] 1); [reflexivity | lia].
Defined.
